(** * tspidfilter: hiding PIDs of a transport stream carried over UDP

    A shallow embedding of [tspidfilter.cpp] and the verification of its
    per-datagram core: the framing of a received datagram into 188-byte TS
    packets, the in-place PID patch ([get_pid], [set_pid], [patch_ts]), the
    construction of the PID list from the command line ([parse_args]) and
    one turn of the processing loop of [main].

    Conventions of the embedding.
    - The receive buffer [msgbuf] is a [list Z] of bytes; a pointer into it
      is a [nat] offset.  An access outside the object (undefined behaviour
      in C) makes the operation return [None].
    - [TSHDR_t] is a view of four bytes.  Its bit-fields are laid out the
      way gcc, clang and MSVC do on little-endian targets: within one byte
      the first declared field takes the least significant bits.  The
      program itself refuses to run unless [sizeof(TSHDR_t) == 4].
    - [int] values are unbounded [Z]: the lengths and loop counters are
      small, and the count of patches is bounded in
      [patch_ts_count_bounds]; [unsigned] conversions are written out. *)

From Stdlib Require Import ZArith Lia Bool Ascii String.
From stdpp Require Import base option list strings.

Local Open Scope Z_scope.

(** ** Constants *)

Definition MSGBUFSIZE : Z := 1400.
Definition TS_LEN : Z := 188.
Definition TS_SYNC : Z := 0x47.
Definition PID_NULL : Z := 8191.

(** Conversions to the unsigned types of the program. *)
Definition to_uint (x : Z) : Z := x mod 2 ^ 32.
Definition to_ushort (x : Z) : Z := x mod 2 ^ 16.
Definition to_ull (x : Z) : Z := x mod 2 ^ 64.

(** ** Memory: the bytes of [msgbuf] *)

Definition is_byte (b : Z) : Prop := 0 <= b < 256.

Definition load (m : list Z) (a : nat) : option Z := m !! a.

Definition store (m : list Z) (a : nat) (v : Z) : option (list Z) :=
  if decide (a < length m)%nat then Some (<[a := v]> m) else None.

(** ** The header view [TSHDR_t]

    byte 0: sync:8;  byte 1: pidH:5, tp:1, pusi:1, tei:1;
    byte 2: pidL:8;  byte 3: cc:4, afc:2, tfc:2. *)

Definition hdr_sync (m : list Z) (p : nat) : option Z := load m p.

Definition hdr_pidH (m : list Z) (p : nat) : option Z :=
  b ← load m (p + 1)%nat; Some (Z.land b 0x1F).

Definition hdr_tp (m : list Z) (p : nat) : option Z :=
  b ← load m (p + 1)%nat; Some (Z.land (Z.shiftr b 5) 1).

Definition hdr_pusi (m : list Z) (p : nat) : option Z :=
  b ← load m (p + 1)%nat; Some (Z.land (Z.shiftr b 6) 1).

Definition hdr_tei (m : list Z) (p : nat) : option Z :=
  b ← load m (p + 1)%nat; Some (Z.land (Z.shiftr b 7) 1).

Definition hdr_pidL (m : list Z) (p : nat) : option Z := load m (p + 2)%nat.

Definition hdr_cc (m : list Z) (p : nat) : option Z :=
  b ← load m (p + 3)%nat; Some (Z.land b 0xF).

Definition hdr_afc (m : list Z) (p : nat) : option Z :=
  b ← load m (p + 3)%nat; Some (Z.land (Z.shiftr b 4) 3).

Definition hdr_tfc (m : list Z) (p : nat) : option Z :=
  b ← load m (p + 3)%nat; Some (Z.land (Z.shiftr b 6) 3).

(** [p->pidL = v]: the field fills its byte; the value is cut to 8 bits. *)
Definition set_pidL (m : list Z) (p : nat) (v : Z) : option (list Z) :=
  store m (p + 2)%nat (Z.land v 0xFF).

(** [p->pidH = v]: read-modify-write of byte 1; the value is cut to the 5
    bits of the field and the other bits of the byte are kept. *)
Definition set_pidH (m : list Z) (p : nat) (v : Z) : option (list Z) :=
  b ← load m (p + 1)%nat;
  store m (p + 1)%nat (Z.lor (Z.land b (Z.lnot 0x1F)) (Z.land v 0x1F)).

(** ** Transport stream tools *)

(** [unsigned int get_pid(TSHDR_t* p) { return p->pidL | (p->pidH << 8); }] *)
Definition get_pid (m : list Z) (p : nat) : option Z :=
  l ← hdr_pidL m p;
  h ← hdr_pidH m p;
  Some (to_uint (Z.lor l (Z.shiftl h 8))).

(** [int check_sync(TSHDR_t* p) { return TS_SYNC == p->sync; }] *)
Definition check_sync (m : list Z) (p : nat) : option bool :=
  s ← hdr_sync m p; Some (TS_SYNC =? s).

(** [void set_pid(TSHDR_t* p, unsigned int new_pid)] *)
Definition set_pid (m : list Z) (p : nat) (new_pid : Z) : option (list Z) :=
  let new_pid := Z.land new_pid 0x1FFF in
  m1 ← set_pidL m p (Z.land new_pid 0xFF);
  set_pidH m1 p (Z.shiftr new_pid 8).

(** ** Globals set from the command line *)

Record globals := Globals {
  InputMCast : string;
  InputPort : Z;
  OutputMCast : string;
  OutputPort : Z;
  Pid2Patch : list Z;
  Pid2PatchCount : Z
}.

Definition Pid2Patch_capacity : nat := 100.

Definition initial_globals : globals :=
  {| InputMCast := "239.1.2.3"; InputPort := 5000;
     OutputMCast := "239.3.2.1"; OutputPort := 5000;
     Pid2Patch := replicate Pid2Patch_capacity 0; Pid2PatchCount := 0 |}.

(** ** Console output *)

Inductive out_line :=
  | SyncErrorLine
  | StatusLine (udp n_in ts patched : Z).

Record world := World {
  msgbuf : list Z;
  stdout : list out_line
}.

Definition printf (l : out_line) (w : world) : world :=
  {| msgbuf := msgbuf w; stdout := stdout w ++ [l] |}.

Definition with_msgbuf (m : list Z) (w : world) : world :=
  {| msgbuf := m; stdout := stdout w |}.

(** ** The patcher *)

(** The loop [for (int i = 0; i < Pid2PatchCount; i++)] of [patch_ts] with
    [iters] turns left; the [break] is commented out in the source, so the
    scan goes on after a match and reads the PID again at every turn. *)
Fixpoint match_loop (g : globals) (ts_buf : nat) (iters : nat) (i : Z)
    (n_patched : Z) (m : list Z) : option (Z * list Z) :=
  match iters with
  | O => Some (n_patched, m)
  | S iters' =>
      pid ← get_pid m ts_buf;
      f ← Pid2Patch g !! Z.to_nat i;
      if pid =? f then
        m' ← set_pid m ts_buf PID_NULL;
        match_loop g ts_buf iters' (i + 1) (n_patched + 1) m'
      else
        match_loop g ts_buf iters' (i + 1) n_patched m
  end.

(** The loop [for (; n_ts > 0; n_ts--, ts_buf += TS_LEN)] with [iters]
    turns left. *)
Fixpoint patch_loop (g : globals) (iters : nat) (ts_buf : nat)
    (n_patched : Z) (w : world) : option (Z * world) :=
  match iters with
  | O => Some (n_patched, w)
  | S iters' =>
      ok ← check_sync (msgbuf w) ts_buf;
      if negb ok then
        patch_loop g iters' (ts_buf + Z.to_nat TS_LEN)%nat n_patched
                   (printf SyncErrorLine w)
      else
        r ← match_loop g ts_buf (Z.to_nat (Pid2PatchCount g)) 0 n_patched
                       (msgbuf w);
        patch_loop g iters' (ts_buf + Z.to_nat TS_LEN)%nat r.1
                   (with_msgbuf r.2 w)
  end.

(** [int patch_ts(unsigned char* ts_buf, int n_ts)]: the value returned is
    [n_patched]; the buffer and the console are in the [world]. *)
Definition patch_ts (g : globals) (ts_buf : nat) (n_ts : Z) (w : world)
    : option (Z * world) :=
  patch_loop g (Z.to_nat n_ts) ts_buf 0 w.

(** ** The command line *)

(** libc's [atoi], as the C standard describes it: white space is skipped,
    an optional sign is read, then decimal digits up to the first character
    that is not one.  (A value outside [int] is undefined in C; here it is
    the unbounded number.) *)
Definition is_space (c : Ascii.ascii) : bool :=
  let n := Z.of_N (Ascii.N_of_ascii c) in (n =? 32) || ((9 <=? n) && (n <=? 13)).

Definition digit_of (c : Ascii.ascii) : option Z :=
  let n := Z.of_N (Ascii.N_of_ascii c) in
  if (48 <=? n) && (n <=? 57) then Some (n - 48) else None.

Fixpoint atoi_digits (acc : Z) (s : string) : Z :=
  match s with
  | EmptyString => acc
  | String c s' =>
      match digit_of c with
      | Some d => atoi_digits (10 * acc + d) s'
      | None => acc
      end
  end.

Fixpoint skip_space (s : string) : string :=
  match s with
  | String c s' => if is_space c then skip_space s' else s
  | EmptyString => s
  end.

Definition atoi (s : string) : Z :=
  match skip_space s with
  | String "-" s' => - atoi_digits 0 s'
  | String "+" s' => atoi_digits 0 s'
  | s' => atoi_digits 0 s'
  end.

(** How a start-up routine ends: it returns, it calls [exit], or it writes
    outside an object. *)
Inductive outcome (A : Type) :=
  | Done (a : A)
  | Exit (code : Z)
  | Fault (index : Z).
Arguments Done {A} a.
Arguments Exit {A} code.
Arguments Fault {A} index.

(** [Pid2Patch[Pid2PatchCount++] = v] *)
Definition push_pid (v : Z) (g : globals) : outcome globals :=
  let i := Pid2PatchCount g in
  if decide (0 <= i < Z.of_nat (length (Pid2Patch g))) then
    Done {| InputMCast := InputMCast g; InputPort := InputPort g;
            OutputMCast := OutputMCast g; OutputPort := OutputPort g;
            Pid2Patch := <[Z.to_nat i := to_ushort v]> (Pid2Patch g);
            Pid2PatchCount := i + 1 |}
  else Fault i.

(** [for (; arg < argc; ) Pid2Patch[Pid2PatchCount++] = atoi(argv[arg++]);]
    with [iters] turns left. *)
Fixpoint parse_pids (argv : list string) (iters : nat) (arg : nat)
    (g : globals) : outcome globals :=
  match iters with
  | O => Done g
  | S iters' =>
      match push_pid (atoi (argv !!! arg)) g with
      | Done g' => parse_pids argv iters' (S arg) g'
      | r => r
      end
  end.

(** [void parse_args(int argc, char** argv)], started on the globals [g0];
    [argc] is the length of [argv].  (The usage text printed before
    [exit(1)] is left out.) *)
Definition parse_args (argv : list string) (g0 : globals) : outcome globals :=
  let argc := length argv in
  if decide (argc < 5)%nat then Exit 1
  else
    let g := {| InputMCast := argv !!! 1%nat;
                InputPort := to_ushort (atoi (argv !!! 2%nat));
                OutputMCast := argv !!! 3%nat;
                OutputPort := to_ushort (atoi (argv !!! 4%nat));
                Pid2Patch := Pid2Patch g0;
                Pid2PatchCount := Pid2PatchCount g0 |} in
    parse_pids argv (argc - 5) 5 g.

(** ** The processing loop of [main] *)

(** Lines 320-322: the number of TS packets and the offset of the first
    one, from the length of the datagram; [/] of C truncates. *)
Definition frame (n_in : Z) : Z * Z :=
  let n_ts := Z.quot n_in TS_LEN in
  let ts_length := n_ts * TS_LEN in
  let ts_offset := n_in - ts_length in
  (n_ts, ts_offset).

(** What one turn of the loop gets from outside: the result of [recvfrom]
    (an error, or a datagram) and the clock read by [time]. *)
Inductive recv_result :=
  | RecvError
  | RecvDatagram (payload : list Z).

Record turn_input := TurnInput {
  recv : recv_result;
  now : Z
}.

Record main_state := MainState {
  mem : world;
  count_udp : Z;
  count_ts : Z;
  count_patched : Z;
  last_display : Z;
  sent : list (list Z)
}.

(** [recvfrom(fd_in, msgbuf, MSGBUFSIZE, ...)] on a datagram: at most
    [MSGBUFSIZE] bytes are copied to the front of [msgbuf] (the rest of a
    longer datagram is dropped) and their number is returned. *)
Definition recvfrom (payload : list Z) (m : list Z) : Z * list Z :=
  let n := Z.to_nat (Z.min (Z.of_nat (length payload)) MSGBUFSIZE) in
  (Z.of_nat n, take n payload ++ drop n m).

(** The body of [while (1)]. *)
Definition main_turn (g : globals) (st : main_state) (inp : turn_input)
    : option main_state :=
  match recv inp with
  | RecvError => Some st
  | RecvDatagram payload =>
      let '(n_in, m) := recvfrom payload (msgbuf (mem st)) in
      let '(n_ts, ts_offset) := frame n_in in
      r ← patch_ts g (Z.to_nat ts_offset) n_ts (with_msgbuf m (mem st));
      let count_patched := to_ull (count_patched st + r.1) in
      let count_udp := to_ull (count_udp st + 1) in
      let count_ts := to_ull (count_ts st + n_ts) in
      let display := 5 <=? now inp - last_display st in
      let w := if display
               then printf (StatusLine count_udp n_in count_ts count_patched) r.2
               else r.2 in
      Some {| mem := w;
              count_udp := count_udp;
              count_ts := count_ts;
              count_patched := count_patched;
              last_display := if display then now inp else last_display st;
              sent := sent st ++ [take (Z.to_nat n_in) (msgbuf w)] |}
  end.

(** The loop over the first turns of a run. *)
Fixpoint main_loop (g : globals) (st : main_state) (inps : list turn_input)
    : option main_state :=
  match inps with
  | [] => Some st
  | inp :: rest => st' ← main_turn g st inp; main_loop g st' rest
  end.

Definition initial_state : main_state :=
  {| mem := {| msgbuf := replicate (Z.to_nat MSGBUFSIZE) 0; stdout := [] |};
     count_udp := 0; count_ts := 0; count_patched := 0;
     last_display := 0; sent := [] |}.

(** * Notions used in the statements *)

(** The globals as [parse_args] leaves them when it stays inside
    [Pid2Patch]: the count is an index range of the array. *)
Definition globals_ok (g : globals) : Prop :=
  0 <= Pid2PatchCount g <= Z.of_nat (length (Pid2Patch g)).

(** The filter set: the entries of [Pid2Patch] that the scan reads. *)
Definition active_filter (g : globals) : list Z :=
  take (Z.to_nat (Pid2PatchCount g)) (Pid2Patch g).

(** Start of window [j] of the payload that begins at [p]. *)
Definition window (p j : nat) : nat := (p + Z.to_nat TS_LEN * j)%nat.

(** [a] is one of the 188 bytes of the window at [q]. *)
Definition in_window (q a : nat) : Prop := (q <= a < q + Z.to_nat TS_LEN)%nat.

(** The two bytes [set_pid] writes. *)
Definition pid_byte1 (b new_pid : Z) : Z :=
  Z.lor (Z.land b (Z.lnot 0x1F)) (Z.land (Z.shiftr (Z.land new_pid 0x1FFF) 8) 0x1F).
Definition pid_byte2 (new_pid : Z) : Z :=
  Z.land (Z.land new_pid 0x1FFF) 0xFF.

(** Two memories that hold the same header bytes at [p]. *)
Definition same_pid_bytes (m m' : list Z) (p : nat) : Prop :=
  m' !! p = m !! p /\ m' !! (p + 1)%nat = m !! (p + 1)%nat
  /\ m' !! (p + 2)%nat = m !! (p + 2)%nat.

(** The buffer with the PID at [p] set to NULL (unchanged if the header
    does not fit). *)
Definition null_at (m : list Z) (p : nat) : list Z :=
  default m (set_pid m p PID_NULL).

(** How often the scan over [fs] counts a packet that starts with PID
    [pid]: after a match the packet carries PID_NULL. *)
Fixpoint hits (fs : list Z) (pid : Z) : Z :=
  match fs with
  | [] => 0
  | f :: fs' => if pid =? f then 1 + hits fs' PID_NULL else hits fs' pid
  end.

(** The packet at [q]: its sync byte is wrong. *)
Definition pkt_bad (m : list Z) (q : nat) : bool :=
  match check_sync m q with Some false => true | _ => false end.

(** The packet at [q]: its sync byte is right and its PID is in the filter. *)
Definition pkt_listed (g : globals) (m : list Z) (q : nat) : bool :=
  match check_sync m q, get_pid m q with
  | Some true, Some pid => bool_decide (pid ∈ active_filter g)
  | _, _ => false
  end.

(** What the packet at [q] adds to [n_patched]: nothing if its sync byte
    is wrong, else what the scan of the filter counts for its PID. *)
Definition pkt_hits (g : globals) (m : list Z) (q : nat) : Z :=
  match check_sync m q, get_pid m q with
  | Some true, Some pid => hits (active_filter g) pid
  | _, _ => 0
  end.

(** The buffer after the turn of the packet loop for the packet at [q]. *)
Definition after_turn (g : globals) (m : list Z) (q : nat) : list Z :=
  if pkt_listed g m q then null_at m q else m.

(** The sum of [pkt_hits] over the [n] windows that start at [p]. *)
Fixpoint sum_hits (g : globals) (m : list Z) (p : nat) (n : nat) : Z :=
  match n with
  | O => 0
  | S n' => pkt_hits g m p + sum_hits g m (p + Z.to_nat TS_LEN)%nat n'
  end.

(** The number of windows, among the [n] that start at [p], whose first
    byte is not the sync byte. *)
Fixpoint sync_errors (m : list Z) (p : nat) (n : nat) : nat :=
  match n with
  | O => 0
  | S n' => ((if pkt_bad m p then 1 else 0)
             + sync_errors m (p + Z.to_nat TS_LEN)%nat n')%nat
  end.

(** The header fields other than the PID read the same in [m'] as in [m],
    and so do the three bits of byte 1 above [pidH] and all higher ones. *)
Definition flags_kept (m m' : list Z) (q : nat) : Prop :=
  hdr_sync m' q = hdr_sync m q
  /\ hdr_tei m' q = hdr_tei m q
  /\ hdr_pusi m' q = hdr_pusi m q
  /\ hdr_tp m' q = hdr_tp m q
  /\ hdr_tfc m' q = hdr_tfc m q
  /\ hdr_afc m' q = hdr_afc m q
  /\ hdr_cc m' q = hdr_cc m q
  /\ (exists b b', m !! (q + 1)%nat = Some b /\ m' !! (q + 1)%nat = Some b'
                   /\ forall k, 5 <= k -> Z.testbit b' k = Z.testbit b k).

(** ** Notions used in the further properties *)

(** [a] is byte 1 or byte 2 of one of the [n] windows that start at [p]:
    the two bytes that hold the PID. *)
Definition pid_byte_of (p n a : nat) : Prop :=
  exists j, (j < n)%nat
            /\ (a = (window p j + 1)%nat \/ a = (window p j + 2)%nat).

(** The number of windows, among the [n] that start at [p], with the right
    sync byte and a PID in the filter. *)
Fixpoint listed_count (g : globals) (m : list Z) (p : nat) (n : nat) : nat :=
  match n with
  | O => 0
  | S n' => ((if pkt_listed g m p then 1 else 0)
             + listed_count g m (p + Z.to_nat TS_LEN)%nat n')%nat
  end.

(** Two buffers that hold the same first three bytes in each of the [n]
    windows that start at [p]. *)
Definition same_headers (m m' : list Z) (p n : nat) : Prop :=
  forall j, (j < n)%nat -> same_pid_bytes m m' (window p j).

(** How often PID_NULL occurs in a list of PIDs. *)
Fixpoint null_entries (fs : list Z) : nat :=
  match fs with
  | [] => 0
  | f :: fs' => ((if (PID_NULL =? f)%Z then 1 else 0) + null_entries fs')%nat
  end.

(** The lengths [recvfrom] returns over the turns of a run, failed
    receives left out. *)
Fixpoint received_lengths (inps : list turn_input) : list nat :=
  match inps with
  | [] => []
  | inp :: rest =>
      match recv inp with
      | RecvError => received_lengths rest
      | RecvDatagram payload =>
          Z.to_nat (recvfrom payload []).1 :: received_lengths rest
      end
  end.

(** ** Sample data *)

(** Globals whose filter holds the PIDs [fs]. *)
Definition filter_globals (fs : list Z) : globals :=
  {| InputMCast := InputMCast initial_globals;
     InputPort := InputPort initial_globals;
     OutputMCast := OutputMCast initial_globals;
     OutputPort := OutputPort initial_globals;
     Pid2Patch := fs ++ replicate (Pid2Patch_capacity - length fs) 0;
     Pid2PatchCount := Z.of_nat (length fs) |}.

(** A TS packet with the given header bytes and a payload of 0xFF. *)
Definition ts_packet (b0 b1 b2 b3 : Z) : list Z :=
  [b0; b1; b2; b3] ++ replicate 184 0xFF.

Definition quiet (m : list Z) : world := {| msgbuf := m; stdout := [] |}.

(** PID 100, payload_unit_start set. *)
Definition packet_pid100 : list Z := ts_packet 0x47 0x40 0x64 0x10.
(** PID 200, transport_error_indicator set. *)
Definition packet_pid200 : list Z := ts_packet 0x47 0x80 0xC8 0x1A.
(** PID 100 behind a broken sync byte. *)
Definition packet_nosync : list Z := ts_packet 0x46 0x40 0x64 0x10.
(** A NULL packet. *)
Definition packet_null : list Z := ts_packet 0x47 0x1F 0xFF 0x10.

(** A 12-byte header, as RTP has. *)
Definition rtp_header : list Z := [0x80; 0x21; 0; 1; 0; 0; 0; 0; 1; 2; 3; 4].

(** A command line with [n] PID arguments. *)
Definition command_line (n : nat) : list string :=
  ["tspidfilter"; "239.1.2.3"; "5000"; "239.3.2.1"; "6000"] ++ replicate n "100".

(** * Bit-level facts about the PID field *)

Ltac bits_rw :=
  repeat first
    [ rewrite Z.land_spec | rewrite Z.lor_spec
    | rewrite Z.lnot_spec by lia
    | rewrite Z.shiftl_spec by lia | rewrite Z.shiftr_spec by lia
    | rewrite Z.testbit_ones_nonneg by lia ].

Lemma mask_1F : 0x1F = Z.ones 5. Proof. reflexivity. Qed.
Lemma mask_FF : 0xFF = Z.ones 8. Proof. reflexivity. Qed.
Lemma mask_1FFF : 0x1FFF = Z.ones 13. Proof. reflexivity. Qed.

Lemma land_1FFF v : Z.land v 0x1FFF = v mod 8192.
Proof. rewrite mask_1FFF, Z.land_ones by lia. reflexivity. Qed.

Lemma pid_join b v :
  Z.lor (Z.land (Z.land v 0x1FFF) 0xFF)
        (Z.shiftl (Z.land (Z.lor (Z.land b (Z.lnot 0x1F))
                                 (Z.land (Z.shiftr (Z.land v 0x1FFF) 8) 0x1F))
                          0x1F) 8)
  = Z.land v 0x1FFF.
Proof.
  rewrite mask_1F, mask_FF, mask_1FFF.
  apply Z.bits_inj'; intros i Hi.
  destruct (Z.ltb_spec i 8) as [H8|H8].
  - rewrite Z.lor_spec, Z.shiftl_spec_low by lia.
    bits_rw. destruct (Z.ltb_spec i 8), (Z.ltb_spec i 13); try lia.
    destruct (Z.testbit v i); reflexivity.
  - bits_rw. replace (i - 8 + 8) with i by lia.
    destruct (Z.ltb_spec i 8), (Z.ltb_spec (i - 8) 5), (Z.ltb_spec i 13);
      try lia; destruct (Z.testbit v i), (Z.testbit b (i - 8)); reflexivity.
Qed.

Lemma pidH_keeps_high_bits b v k :
  5 <= k ->
  Z.testbit (Z.lor (Z.land b (Z.lnot 0x1F)) (Z.land v 0x1F)) k = Z.testbit b k.
Proof.
  intros Hk. rewrite mask_1F. bits_rw.
  destruct (Z.ltb_spec k 5); try lia.
  destruct (Z.testbit b k), (Z.testbit v k); reflexivity.
Qed.

Lemma pidH_keeps_shifted b v s w :
  5 <= s -> 0 <= w ->
  Z.land (Z.shiftr (Z.lor (Z.land b (Z.lnot 0x1F)) (Z.land v 0x1F)) s) (Z.ones w)
  = Z.land (Z.shiftr b s) (Z.ones w).
Proof.
  intros Hs Hw. apply Z.bits_inj'; intros i Hi.
  rewrite !Z.land_spec, !Z.shiftr_spec by lia.
  rewrite pidH_keeps_high_bits by lia. reflexivity.
Qed.

Lemma pidH_null_idem b :
  Z.lor (Z.land (Z.lor (Z.land b (Z.lnot 0x1F)) 0x1F) (Z.lnot 0x1F)) 0x1F
  = Z.lor (Z.land b (Z.lnot 0x1F)) 0x1F.
Proof.
  rewrite mask_1F. apply Z.bits_inj'; intros i Hi. bits_rw.
  destruct (Z.ltb_spec i 5), (Z.testbit b i); reflexivity.
Qed.

Lemma get_pid_range l h :
  is_byte l -> 0 <= to_uint (Z.lor l (Z.shiftl (Z.land h 0x1F) 8)) <= 8191.
Proof.
  intros [Hl Hl'].
  assert (Hh : 0 <= Z.land h 0x1F < 32).
  { rewrite mask_1F, Z.land_ones by lia. apply Z.mod_pos_bound. lia. }
  assert (Hs : Z.shiftl (Z.land h 0x1F) 8 = Z.land h 0x1F * 256).
  { rewrite Z.shiftl_mul_pow2 by lia. reflexivity. }
  assert (Hb : 0 <= Z.lor l (Z.shiftl (Z.land h 0x1F) 8) < 2 ^ 13).
  { split.
    - apply Z.lor_nonneg. split; [lia|]. rewrite Hs. lia.
    - destruct (Z.eq_dec (Z.lor l (Z.shiftl (Z.land h 31) 8)) 0) as [->|Hne];
        [lia|].
      apply Z.log2_lt_pow2.
      + assert (0 <= Z.lor l (Z.shiftl (Z.land h 31) 8))
          by (apply Z.lor_nonneg; split; [lia|rewrite Hs; lia]). lia.
      + rewrite Z.log2_lor by (rewrite ?Hs; lia).
        apply Z.max_lub_lt.
        * destruct (Z.eq_dec l 0) as [->|]; [reflexivity|].
          apply Z.log2_lt_pow2; lia.
        * rewrite Hs. destruct (Z.eq_dec (Z.land h 31) 0) as [->|]; [reflexivity|].
          apply Z.log2_lt_pow2; lia. }
  unfold to_uint. rewrite Z.mod_small; lia.
Qed.

(** * Loads and stores *)

Lemma store_Some m a v :
  (a < length m)%nat -> store m a v = Some (<[a := v]> m).
Proof. intros H. unfold store. rewrite decide_True by done. done. Qed.

Lemma load_Some (m : list Z) a :
  (a < length m)%nat -> exists b, load m a = Some b.
Proof. intros H. unfold load. apply lookup_lt_is_Some_2 in H. destruct H; eauto. Qed.

Lemma set_pid_Some m p v b :
  (p + 2 < length m)%nat ->
  m !! (p + 1)%nat = Some b ->
  set_pid m p v
  = Some (<[(p + 1)%nat := pid_byte1 b v]> (<[(p + 2)%nat := pid_byte2 v]> m)).
Proof.
  intros Hlen Hb. unfold set_pid, set_pidL, set_pidH, load.
  rewrite store_Some by lia. cbn.
  rewrite list_lookup_insert_ne by lia. rewrite Hb. cbn.
  rewrite store_Some by (rewrite length_insert; lia).
  unfold pid_byte1, pid_byte2.
  rewrite <- (Z.land_assoc _ 0xFF 0xFF). reflexivity.
Qed.

Lemma get_pid_Some m p l b :
  m !! (p + 2)%nat = Some l -> m !! (p + 1)%nat = Some b ->
  get_pid m p = Some (to_uint (Z.lor l (Z.shiftl (Z.land b 0x1F) 8))).
Proof.
  intros Hl Hb. unfold get_pid, hdr_pidL, hdr_pidH, load.
  rewrite Hl, Hb. reflexivity.
Qed.

Lemma get_pid_set_bytes m p b v :
  (p + 2 < length m)%nat ->
  get_pid (<[(p + 1)%nat := pid_byte1 b v]> (<[(p + 2)%nat := pid_byte2 v]> m)) p
  = Some (v mod 8192).
Proof.
  intros Hlen.
  erewrite get_pid_Some; cycle 1.
  - rewrite list_lookup_insert_ne by lia.
    apply list_lookup_insert_eq. lia.
  - apply list_lookup_insert_eq. rewrite length_insert. lia.
  - unfold pid_byte1, pid_byte2. rewrite pid_join, land_1FFF.
    unfold to_uint. f_equal. apply Z.mod_small.
    pose proof (Z.mod_pos_bound v 8192). lia.
Qed.

Lemma same_pid_bytes_check_sync m m' p :
  same_pid_bytes m m' p -> check_sync m' p = check_sync m p.
Proof. intros (H0 & _ & _). unfold check_sync, hdr_sync, load. by rewrite H0. Qed.

Lemma same_pid_bytes_get_pid m m' p :
  same_pid_bytes m m' p -> get_pid m' p = get_pid m p.
Proof.
  intros (_ & H1 & H2). unfold get_pid, hdr_pidL, hdr_pidH, load.
  by rewrite H1, H2.
Qed.

(** * The scan of the filter *)

Lemma null_at_eq m p b :
  (p + 2 < length m)%nat -> m !! (p + 1)%nat = Some b ->
  set_pid m p PID_NULL = Some (null_at m p)
  /\ null_at m p
     = <[(p + 1)%nat := Z.lor (Z.land b (Z.lnot 0x1F)) 0x1F]>
         (<[(p + 2)%nat := 0xFF]> m).
Proof.
  intros Hlen Hb. unfold null_at.
  rewrite (set_pid_Some m p PID_NULL b Hlen Hb). cbn. split; reflexivity.
Qed.

Lemma set_pid_None m p v : (length m <= p + 2)%nat -> set_pid m p v = None.
Proof.
  intros H. unfold set_pid, set_pidL, store.
  rewrite decide_False by lia. reflexivity.
Qed.

Lemma null_at_cases m p :
  null_at m p = m
  \/ exists b, null_at m p
               = <[(p + 1)%nat := Z.lor (Z.land b (Z.lnot 0x1F)) 0x1F]>
                   (<[(p + 2)%nat := 0xFF]> m).
Proof.
  destruct (decide (p + 2 < length m)%nat) as [Hlen|Hlen].
  - destruct (lookup_lt_is_Some_2 m (p + 1)%nat ltac:(lia)) as [b Hb].
    right. exists b. by destruct (null_at_eq m p b Hlen Hb).
  - left. unfold null_at. rewrite set_pid_None by lia. reflexivity.
Qed.

Lemma null_at_length m p : length (null_at m p) = length m.
Proof.
  destruct (null_at_cases m p) as [->|[b ->]]; [done|].
  by rewrite !length_insert.
Qed.

Lemma null_at_other m p a :
  a <> (p + 1)%nat -> a <> (p + 2)%nat -> null_at m p !! a = m !! a.
Proof.
  intros H1 H2. destruct (null_at_cases m p) as [->|[b ->]]; [done|].
  by rewrite !list_lookup_insert_ne by lia.
Qed.

Lemma get_pid_null_at m p :
  (p + 2 < length m)%nat -> get_pid (null_at m p) p = Some PID_NULL.
Proof.
  intros Hlen.
  destruct (lookup_lt_is_Some_2 m (p + 1)%nat ltac:(lia)) as [b Hb].
  unfold null_at. rewrite (set_pid_Some m p PID_NULL b Hlen Hb). cbn.
  rewrite get_pid_set_bytes by lia. reflexivity.
Qed.

Lemma null_at_idem m p :
  (p + 2 < length m)%nat -> null_at (null_at m p) p = null_at m p.
Proof.
  intros Hlen.
  destruct (lookup_lt_is_Some_2 m (p + 1)%nat ltac:(lia)) as [b Hb].
  destruct (null_at_eq m p b Hlen Hb) as [_ E].
  assert (Hb' : null_at m p !! (p + 1)%nat
                = Some (Z.lor (Z.land b (Z.lnot 0x1F)) 0x1F)).
  { rewrite E. apply list_lookup_insert_eq. rewrite length_insert. lia. }
  destruct (null_at_eq (null_at m p) p _
              ltac:(rewrite null_at_length; lia) Hb') as [_ E'].
  rewrite E', pidH_null_idem, E.
  rewrite (list_insert_insert_ne _ (p + 2)%nat (p + 1)%nat) by lia.
  rewrite !list_insert_insert_eq. reflexivity.
Qed.

Lemma hits_not_listed fs pid : pid ∉ fs -> hits fs pid = 0.
Proof.
  induction fs as [|f fs IH]; intros Hn; [reflexivity|]. cbn.
  apply not_elem_of_cons in Hn as [Hne Hn].
  destruct (Z.eqb_spec pid f); [contradiction|]. auto.
Qed.

Lemma hits_once fs pid :
  PID_NULL ∉ fs -> pid ∈ fs -> hits fs pid = 1.
Proof.
  induction fs as [|f fs IH]; intros Hnull Hin.
  - by apply elem_of_nil in Hin.
  - apply not_elem_of_cons in Hnull as [Hne Hnull]. cbn.
    destruct (Z.eqb_spec pid f) as [->|Hpf].
    + rewrite (hits_not_listed fs PID_NULL Hnull). reflexivity.
    + apply elem_of_cons in Hin as [?|Hin]; [contradiction|]. auto.
Qed.

Lemma hits_bounds fs pid : 0 <= hits fs pid <= Z.of_nat (length fs).
Proof.
  revert pid. induction fs as [|f fs IH]; intros pid; cbn [hits length]; [lia|].
  destruct (pid =? f); [specialize (IH PID_NULL)|specialize (IH pid)]; lia.
Qed.

Lemma hits_listed_pos fs pid : pid ∈ fs -> 1 <= hits fs pid.
Proof.
  induction fs as [|f fs IH]; intros Hin.
  - by apply elem_of_nil in Hin.
  - cbn. destruct (Z.eqb_spec pid f) as [->|Hpf].
    + pose proof (hits_bounds fs PID_NULL). lia.
    + apply elem_of_cons in Hin as [?|Hin]; [contradiction|]. auto.
Qed.

Lemma match_loop_spec g p iters :
  forall i n_patched m pid,
    (p + 2 < length m)%nat ->
    0 <= i ->
    (Z.to_nat i + iters <= length (Pid2Patch g))%nat ->
    get_pid m p = Some pid ->
    match_loop g p iters i n_patched m
    = Some (n_patched + hits (take iters (drop (Z.to_nat i) (Pid2Patch g))) pid,
            if bool_decide (pid ∈ take iters (drop (Z.to_nat i) (Pid2Patch g)))
            then null_at m p else m).
Proof.
  induction iters as [|iters IH]; intros i np m pid Hlen Hi Hrange Hpid.
  - cbn. rewrite Z.add_0_r. reflexivity.
  - destruct (lookup_lt_is_Some_2 (Pid2Patch g) (Z.to_nat i) ltac:(lia))
      as [f Hf].
    rewrite (drop_S _ _ _ Hf). cbn [take match_loop hits].
    rewrite Hpid, Hf. cbn [mbind option_bind].
    assert (Hi1 : Z.to_nat (i + 1) = S (Z.to_nat i)) by lia.
    destruct (lookup_lt_is_Some_2 m (p + 1)%nat ltac:(lia)) as [b Hb].
    destruct (Z.eqb_spec pid f) as [->|Hne].
    + destruct (null_at_eq m p b Hlen Hb) as [-> _]. cbn [mbind option_bind].
      rewrite (IH (i + 1) (np + 1) (null_at m p) PID_NULL);
        [|rewrite null_at_length; lia|lia|lia|by apply get_pid_null_at].
      rewrite Hi1, null_at_idem by lia.
      rewrite (bool_decide_eq_true_2 (f ∈ f :: _)) by apply list_elem_of_here.
      f_equal. f_equal; [lia|]. by destruct (bool_decide _).
    + rewrite (IH (i + 1) np m pid) by (done || lia).
      rewrite Hi1. f_equal. f_equal.
      rewrite (bool_decide_ext (pid ∈ f :: _) (pid ∈ take iters
                 (drop (S (Z.to_nat i)) (Pid2Patch g)))); [done|].
      rewrite elem_of_cons. tauto.
Qed.

(** * One turn of the packet loop, and the whole loop *)

Lemma TS_LEN_nat : Z.to_nat TS_LEN = 188%nat.
Proof. reflexivity. Qed.

Ltac ts_arith :=
  unfold window, in_window in *; rewrite ?TS_LEN_nat in *; try lia.

Lemma pkt_bad_ext m m' q :
  same_pid_bytes m m' q -> pkt_bad m' q = pkt_bad m q.
Proof. intros H. unfold pkt_bad. by rewrite (same_pid_bytes_check_sync _ _ _ H). Qed.

Lemma pkt_listed_ext g m m' q :
  same_pid_bytes m m' q -> pkt_listed g m' q = pkt_listed g m q.
Proof.
  intros H. unfold pkt_listed.
  by rewrite (same_pid_bytes_check_sync _ _ _ H), (same_pid_bytes_get_pid _ _ _ H).
Qed.

Lemma pkt_hits_ext g m m' q :
  same_pid_bytes m m' q -> pkt_hits g m' q = pkt_hits g m q.
Proof.
  intros H. unfold pkt_hits.
  by rewrite (same_pid_bytes_check_sync _ _ _ H), (same_pid_bytes_get_pid _ _ _ H).
Qed.

Lemma after_turn_length g m q : length (after_turn g m q) = length m.
Proof. unfold after_turn. destruct (pkt_listed g m q); [apply null_at_length|done]. Qed.

Lemma after_turn_other g m q a :
  a <> (q + 1)%nat -> a <> (q + 2)%nat -> after_turn g m q !! a = m !! a.
Proof.
  intros H1 H2. unfold after_turn.
  destruct (pkt_listed g m q); [by apply null_at_other|done].
Qed.

Lemma after_turn_ext g m m' q a :
  (q + 2 < length m)%nat -> (q + 2 < length m')%nat ->
  same_pid_bytes m m' q -> m' !! a = m !! a ->
  after_turn g m' q !! a = after_turn g m q !! a.
Proof.
  intros Hlen Hlen' Hsame Ha. unfold after_turn.
  rewrite (pkt_listed_ext g m m' q Hsame).
  destruct (pkt_listed g m q); [|done].
  destruct (lookup_lt_is_Some_2 m (q + 1)%nat ltac:(lia)) as [b Hb].
  destruct (null_at_eq m q b Hlen Hb) as [_ ->].
  destruct Hsame as (_ & H1 & _). rewrite <- H1 in Hb.
  destruct (null_at_eq m' q b ltac:(lia) Hb) as [_ ->].
  destruct (decide (a = (q + 1)%nat)) as [->|N1].
  { rewrite !list_lookup_insert_eq by (rewrite length_insert; lia). done. }
  rewrite !(list_lookup_insert_ne _ (q + 1)%nat) by lia.
  destruct (decide (a = (q + 2)%nat)) as [->|N2].
  { rewrite !list_lookup_insert_eq by lia. done. }
  rewrite !list_lookup_insert_ne by lia. done.
Qed.

Lemma sum_hits_ext g m m' n :
  forall p,
    (forall a, (p <= a < p + Z.to_nat TS_LEN * n)%nat -> m' !! a = m !! a) ->
    sum_hits g m' p n = sum_hits g m p n.
Proof.
  induction n as [|n IH]; intros p H; [reflexivity|]. cbn [sum_hits].
  rewrite (pkt_hits_ext g m m' p) by (repeat split; apply H; ts_arith).
  rewrite IH; [reflexivity|]. intros a Ha. apply H. ts_arith.
Qed.

Lemma sync_errors_ext m m' n :
  forall p,
    (forall a, (p <= a < p + Z.to_nat TS_LEN * n)%nat -> m' !! a = m !! a) ->
    sync_errors m' p n = sync_errors m p n.
Proof.
  induction n as [|n IH]; intros p H; [reflexivity|]. cbn [sync_errors].
  rewrite (pkt_bad_ext m m' p) by (repeat split; apply H; ts_arith).
  rewrite IH; [reflexivity|]. intros a Ha. apply H. ts_arith.
Qed.

Lemma patch_loop_turn g n p n_patched w :
  globals_ok g ->
  (p + 2 < length (msgbuf w))%nat ->
  patch_loop g (S n) p n_patched w
  = patch_loop g n (p + Z.to_nat TS_LEN)%nat
      (n_patched + pkt_hits g (msgbuf w) p)
      {| msgbuf := after_turn g (msgbuf w) p;
         stdout := stdout w
                   ++ (if pkt_bad (msgbuf w) p then [SyncErrorLine] else []) |}.
Proof.
  intros [Hc0 Hc1] Hlen. destruct w as [m out]. cbn [msgbuf stdout] in *.
  destruct (lookup_lt_is_Some_2 m p ltac:(lia)) as [b0 H0].
  destruct (lookup_lt_is_Some_2 m (p + 1)%nat ltac:(lia)) as [b1 H1].
  destruct (lookup_lt_is_Some_2 m (p + 2)%nat ltac:(lia)) as [b2 H2].
  pose proof (get_pid_Some m p b2 b1 H2 H1) as Hpid.
  assert (Hsync : check_sync m p = Some (TS_SYNC =? b0)).
  { unfold check_sync, hdr_sync, load. by rewrite H0. }
  cbn [patch_loop msgbuf]. unfold after_turn, pkt_hits, pkt_listed, pkt_bad.
  rewrite Hsync, Hpid. cbn [mbind option_bind].
  destruct (TS_SYNC =? b0); cbn [negb].
  - rewrite (match_loop_spec g p (Z.to_nat (Pid2PatchCount g)) 0 n_patched m
               _ Hlen) by (done || lia).
    cbn [mbind option_bind fst snd]. rewrite app_nil_r.
    change (Z.to_nat 0) with 0%nat. rewrite drop_0. reflexivity.
  - rewrite Z.add_0_r. reflexivity.
Qed.

Lemma patch_loop_spec g :
  globals_ok g ->
  forall n p n_patched w,
    (p + Z.to_nat TS_LEN * n <= length (msgbuf w))%nat ->
    exists m',
      patch_loop g n p n_patched w
      = Some (n_patched + sum_hits g (msgbuf w) p n,
              {| msgbuf := m';
                 stdout := stdout w
                   ++ replicate (sync_errors (msgbuf w) p n) SyncErrorLine |})
      /\ length m' = length (msgbuf w)
      /\ (forall a, (a < p \/ p + Z.to_nat TS_LEN * n <= a)%nat ->
                    m' !! a = msgbuf w !! a)
      /\ (forall j a, (j < n)%nat -> in_window (window p j) a ->
                      m' !! a = after_turn g (msgbuf w) (window p j) !! a).
Proof.
  intros Hg. induction n as [|n IH]; intros p np w Hlen.
  - exists (msgbuf w). destruct w as [m out]. cbn.
    rewrite Z.add_0_r, app_nil_r. split; [done|]. split; [done|].
    split; [done|]. intros j a Hj. lia.
  - rewrite patch_loop_turn by (done || ts_arith).
    set (m := msgbuf w) in *.
    set (w1 := {| msgbuf := after_turn g m p; stdout := _ |}).
    destruct (IH (p + Z.to_nat TS_LEN)%nat (np + pkt_hits g m p) w1)
      as (m' & Hrun & Hlen' & Hout & Hwin).
    { subst w1. cbn [msgbuf]. rewrite after_turn_length. ts_arith. }
    subst w1. cbn [msgbuf stdout] in *.
    assert (Hagree : forall a, (p + Z.to_nat TS_LEN <= a)%nat ->
                               after_turn g m p !! a = m !! a).
    { intros a Ha. apply after_turn_other; ts_arith. }
    exists m'. split; [|split; [|split]].
    + rewrite Hrun. cbn [sum_hits sync_errors].
      rewrite (sum_hits_ext g m _ n), (sync_errors_ext m _ n)
        by (intros; apply Hagree; lia).
      rewrite <- app_assoc, Z.add_assoc. do 3 f_equal.
      destruct (pkt_bad m p); reflexivity.
    + by rewrite Hlen', after_turn_length.
    + intros a Ha. rewrite Hout by ts_arith.
      apply after_turn_other; ts_arith.
    + intros j a Hj Ha. destruct j as [|j].
      * replace (window p 0) with p in * by ts_arith.
        apply Hout. ts_arith.
      * replace (window p (S j)) with (window (p + Z.to_nat TS_LEN) j) in *
          by ts_arith.
        rewrite (Hwin j a) by (lia || done).
        apply after_turn_ext.
        -- ts_arith.
        -- rewrite after_turn_length. ts_arith.
        -- repeat split; apply Hagree; ts_arith.
        -- apply Hagree. ts_arith.
Qed.

(** * [set_pid] and [get_pid] *)

Lemma flags_kept_intro m m' q b v :
  m !! (q + 1)%nat = Some b ->
  m' !! (q + 1)%nat = Some (Z.lor (Z.land b (Z.lnot 0x1F)) (Z.land v 0x1F)) ->
  m' !! q = m !! q ->
  m' !! (q + 3)%nat = m !! (q + 3)%nat ->
  flags_kept m m' q.
Proof.
  intros Hb Hb' H0 H3.
  unfold flags_kept, hdr_sync, hdr_tei, hdr_pusi, hdr_tp, hdr_tfc, hdr_afc,
    hdr_cc, load.
  rewrite H0, H3, Hb, Hb'. cbn [mbind option_bind].
  repeat split; try reflexivity.
  - f_equal. apply (pidH_keeps_shifted b v 7 1); lia.
  - f_equal. apply (pidH_keeps_shifted b v 6 1); lia.
  - f_equal. apply (pidH_keeps_shifted b v 5 1); lia.
  - exists b, (Z.lor (Z.land b (Z.lnot 0x1F)) (Z.land v 0x1F)).
    repeat split. intros k Hk. by apply pidH_keeps_high_bits.
Qed.

Lemma get_pid_bound m p pid :
  Forall is_byte m -> get_pid m p = Some pid -> 0 <= pid <= 8191.
Proof.
  intros Hm. unfold get_pid, hdr_pidL, hdr_pidH, load.
  destruct (m !! (p + 2)%nat) as [l|] eqn:Hl; [|discriminate].
  destruct (m !! (p + 1)%nat) as [b|] eqn:Hb; [|discriminate].
  cbn. intros [= <-]. apply get_pid_range.
  eapply Forall_lookup_1; eauto.
Qed.

(** C10. After [set_pid(p, v)] on a header that lies in the buffer,
    [get_pid(p)] returns [v mod 8192]; [set_pid] writes no byte other than
    bytes 1 and 2 of the header, and in byte 1 only the five bits of [pidH],
    so every other field reads as before; and on a buffer of bytes
    [get_pid] never returns more than 8191. *)
Theorem set_pid_get_pid (m : list Z) (p : nat) (v : Z) :
  (p + 3 < length m)%nat ->
  (exists m',
      set_pid m p v = Some m'
      /\ get_pid m' p = Some (v mod 8192)
      /\ length m' = length m
      /\ (forall a, a <> (p + 1)%nat -> a <> (p + 2)%nat -> m' !! a = m !! a)
      /\ flags_kept m m' p)
  /\ (forall m0 p0 pid,
         Forall is_byte m0 -> get_pid m0 p0 = Some pid -> 0 <= pid <= 8191).
Proof.
  intros Hlen. split; [|intros m0 p0 pid; apply get_pid_bound].
  destruct (lookup_lt_is_Some_2 m (p + 1)%nat ltac:(lia)) as [b Hb].
  rewrite (set_pid_Some m p v b ltac:(lia) Hb).
  eexists. split; [reflexivity|]. split; [|split; [|split]].
  - apply get_pid_set_bytes. lia.
  - by rewrite !length_insert.
  - intros a H1 H2. by rewrite !list_lookup_insert_ne by lia.
  - apply (flags_kept_intro m _ p b (Z.shiftr (Z.land v 0x1FFF) 8) Hb).
    + apply list_lookup_insert_eq. rewrite length_insert. lia.
    + by rewrite !list_lookup_insert_ne by lia.
    + by rewrite !list_lookup_insert_ne by lia.
Qed.

Lemma set_pid_get_pid_witness :
  (exists m',
      set_pid packet_pid200 0 0x12345 = Some m'
      /\ get_pid m' 0 = Some (0x12345 mod 8192)
      /\ length m' = length packet_pid200
      /\ (forall a, a <> 1%nat -> a <> 2%nat -> m' !! a = packet_pid200 !! a)
      /\ flags_kept packet_pid200 m' 0)
  /\ (forall m0 p0 pid,
         Forall is_byte m0 -> get_pid m0 p0 = Some pid -> 0 <= pid <= 8191).
Proof. apply (set_pid_get_pid packet_pid200 0 0x12345). cbn. lia. Defined.

(** * Framing *)

Lemma frame_eq k H :
  0 <= k -> 0 <= H < TS_LEN -> frame (H + TS_LEN * k) = (k, H).
Proof.
  intros Hk HH. unfold frame, TS_LEN in *.
  rewrite Z.quot_div_nonneg by lia.
  replace ((H + 188 * k) / 188) with k
    by (apply (Z.div_unique _ 188 k H); lia).
  f_equal. lia.
Qed.

Lemma recvfrom_length payload m :
  Z.of_nat (length payload) <= MSGBUFSIZE ->
  recvfrom payload m
  = (Z.of_nat (length payload), payload ++ drop (length payload) m).
Proof.
  intros H. unfold recvfrom. rewrite Z.min_l by lia.
  rewrite !Nat2Z.id, firstn_all. reflexivity.
Qed.

(** C2. A datagram of length [N = H + 188*k] with [k >= 0] and
    [0 <= H < 188] is framed as [k] packets behind [H] leading bytes
    (truncating division and its remainder), and the framing of a received
    datagram is that of its length, whatever bytes it carries and whatever
    the buffer held before. *)
Theorem frame_by_length (k H : Z) :
  0 <= k -> 0 <= H < TS_LEN ->
  frame (H + TS_LEN * k) = (k, H)
  /\ Z.quot (H + TS_LEN * k) TS_LEN = k
  /\ (forall payload m,
        Z.of_nat (length payload) = H + TS_LEN * k ->
        H + TS_LEN * k <= MSGBUFSIZE ->
        frame (recvfrom payload m).1 = (k, H)).
Proof.
  intros Hk HH. pose proof (frame_eq k H Hk HH) as E.
  split; [exact E|]. split.
  - unfold frame in E. by injection E.
  - intros payload m Hlen Hmax.
    rewrite recvfrom_length by lia. cbn [fst]. by rewrite Hlen.
Qed.

Lemma frame_by_length_witness :
  frame (12 + TS_LEN * 7) = (7, 12)
  /\ Z.quot (12 + TS_LEN * 7) TS_LEN = 7
  /\ (forall payload m,
        Z.of_nat (length payload) = 12 + TS_LEN * 7 ->
        12 + TS_LEN * 7 <= MSGBUFSIZE ->
        frame (recvfrom payload m).1 = (7, 12)).
Proof. apply (frame_by_length 7 12); unfold TS_LEN; lia. Defined.

(** * [patch_ts] as a whole *)

Lemma patch_ts_spec g w p n :
  globals_ok g ->
  (p + Z.to_nat TS_LEN * n <= length (msgbuf w))%nat ->
  exists m',
    patch_ts g p (Z.of_nat n) w
    = Some (sum_hits g (msgbuf w) p n,
            {| msgbuf := m';
               stdout := stdout w
                 ++ replicate (sync_errors (msgbuf w) p n) SyncErrorLine |})
    /\ length m' = length (msgbuf w)
    /\ (forall a, (a < p \/ p + Z.to_nat TS_LEN * n <= a)%nat ->
                  m' !! a = msgbuf w !! a)
    /\ (forall j a, (j < n)%nat -> in_window (window p j) a ->
                    m' !! a = after_turn g (msgbuf w) (window p j) !! a).
Proof.
  intros Hg Hlen. unfold patch_ts. rewrite Nat2Z.id.
  destruct (patch_loop_spec g Hg n p 0 w Hlen) as (m' & E & H).
  exists m'. split; [exact E|exact H].
Qed.

Lemma sum_hits_snoc g m n :
  forall p, sum_hits g m p (S n) = sum_hits g m p n + pkt_hits g m (window p n).
Proof.
  induction n as [|n IH]; intros p.
  - cbn [sum_hits]. replace (window p 0) with p by ts_arith. lia.
  - change (sum_hits g m p (S (S n)))
      with (pkt_hits g m p + sum_hits g m (p + Z.to_nat TS_LEN)%nat (S n)).
    rewrite IH. cbn [sum_hits].
    replace (window (p + Z.to_nat TS_LEN) n) with (window p (S n)) by ts_arith.
    lia.
Qed.

Lemma sync_errors_snoc m n :
  forall p, sync_errors m p (S n)
            = (sync_errors m p n
               + if pkt_bad m (window p n) then 1 else 0)%nat.
Proof.
  induction n as [|n IH]; intros p.
  - cbn [sync_errors]. replace (window p 0) with p by ts_arith. lia.
  - change (sync_errors m p (S (S n)))
      with ((if pkt_bad m p then 1 else 0)
            + sync_errors m (p + Z.to_nat TS_LEN)%nat (S n))%nat.
    rewrite IH. cbn [sync_errors].
    replace (window (p + Z.to_nat TS_LEN) n) with (window p (S n)) by ts_arith.
    lia.
Qed.

Lemma sum_hits_zero g m n :
  forall p, (forall j, (j < n)%nat -> pkt_hits g m (window p j) = 0) ->
            sum_hits g m p n = 0.
Proof.
  induction n as [|n IH]; intros p H; [reflexivity|].
  rewrite sum_hits_snoc, IH by (intros; apply H; lia).
  rewrite H by lia. reflexivity.
Qed.

Lemma window_cover p n a :
  (a < p)%nat \/ (p + Z.to_nat TS_LEN * n <= a)%nat
  \/ exists j, (j < n)%nat /\ in_window (window p j) a.
Proof.
  destruct (decide (a < p)%nat); [by left|].
  destruct (decide (p + Z.to_nat TS_LEN * n <= a)%nat); [by right; left|].
  right; right. exists ((a - p) / 188)%nat.
  pose proof (Nat.div_mod_eq (a - p) 188).
  pose proof (Nat.mod_upper_bound (a - p) 188 ltac:(lia)).
  unfold window, in_window. rewrite TS_LEN_nat in *.
  split; [apply Nat.Div0.div_lt_upper_bound|]; lia.
Qed.

(** The three kinds of packet, in the words of the code. *)
Lemma pkt_of_bad_sync g m q :
  check_sync m q = Some false ->
  pkt_bad m q = true /\ pkt_listed g m q = false /\ pkt_hits g m q = 0.
Proof. intros H. unfold pkt_bad, pkt_listed, pkt_hits. by rewrite H. Qed.

Lemma pkt_of_unlisted g m q pid :
  check_sync m q = Some true -> get_pid m q = Some pid ->
  pid ∉ active_filter g ->
  pkt_bad m q = false /\ pkt_listed g m q = false /\ pkt_hits g m q = 0.
Proof.
  intros Hs Hp Hn. unfold pkt_bad, pkt_listed, pkt_hits. rewrite Hs, Hp.
  rewrite bool_decide_eq_false_2 by done.
  by rewrite hits_not_listed.
Qed.

Lemma pkt_of_listed g m q pid :
  check_sync m q = Some true -> get_pid m q = Some pid ->
  pid ∈ active_filter g ->
  pkt_bad m q = false /\ pkt_listed g m q = true
  /\ pkt_hits g m q = hits (active_filter g) pid.
Proof.
  intros Hs Hp Hn. unfold pkt_bad, pkt_listed, pkt_hits. rewrite Hs, Hp.
  by rewrite bool_decide_eq_true_2.
Qed.

Lemma pkt_unlisted_hits g m q : pkt_listed g m q = false -> pkt_hits g m q = 0.
Proof.
  unfold pkt_listed, pkt_hits.
  destruct (check_sync m q) as [[]|]; try done.
  destruct (get_pid m q); try done.
  intros H. apply bool_decide_eq_false_1 in H. by apply hits_not_listed.
Qed.

(** The count stays in the range of [int]: at most one per filter entry
    and packet. *)
Lemma pkt_hits_bounds g m q :
  0 <= pkt_hits g m q <= Z.of_nat (length (active_filter g)).
Proof.
  unfold pkt_hits. destruct (check_sync m q) as [[]|]; try lia.
  destruct (get_pid m q); [apply hits_bounds|lia].
Qed.

Lemma sum_hits_bounds g m n :
  forall p,
    0 <= sum_hits g m p n <= Z.of_nat n * Z.of_nat (length (active_filter g)).
Proof.
  induction n as [|n IH]; intros p; cbn [sum_hits]; [lia|].
  pose proof (pkt_hits_bounds g m p).
  specialize (IH (p + Z.to_nat TS_LEN)%nat). lia.
Qed.

Lemma patch_ts_count_bounds g w p n r :
  globals_ok g ->
  (p + Z.to_nat TS_LEN * n <= length (msgbuf w))%nat ->
  patch_ts g p (Z.of_nat n) w = Some r ->
  0 <= r.1 <= Z.of_nat n * Pid2PatchCount g.
Proof.
  intros Hg Hlen Hrun.
  destruct (patch_ts_spec g w p n Hg Hlen) as (m' & E & _).
  rewrite E in Hrun. injection Hrun as <-. cbn [fst].
  pose proof (sum_hits_bounds g (msgbuf w) n p) as Hb.
  unfold active_filter in Hb. rewrite length_take in Hb.
  destruct Hg. nia.
Qed.

(** * Packets whose PID is listed *)

Lemma null_at_byte1 m q b :
  (q + 2 < length m)%nat -> m !! (q + 1)%nat = Some b ->
  null_at m q !! (q + 1)%nat
  = Some (Z.lor (Z.land b (Z.lnot 0x1F)) (Z.land 0x1F 0x1F)).
Proof.
  intros Hlen Hb. destruct (null_at_eq m q b Hlen Hb) as [_ ->].
  apply list_lookup_insert_eq. rewrite length_insert. lia.
Qed.

(** C1. In a run of [patch_ts] over [n] windows that lie in the buffer,
    a window whose sync byte is 0x47 and whose PID is in the filter set ends
    with PID 8191 ([get_pid] returns it), and every bit outside the PID field
    is as received: all bytes of the window other than bytes 1 and 2, the
    bits of byte 1 above [pidH], and so all the other header fields. *)
Theorem patch_ts_nulls_listed_pid (g : globals) (w : world) (p n j : nat)
    (pid : Z) :
  globals_ok g ->
  (p + Z.to_nat TS_LEN * n <= length (msgbuf w))%nat ->
  (j < n)%nat ->
  check_sync (msgbuf w) (window p j) = Some true ->
  get_pid (msgbuf w) (window p j) = Some pid ->
  pid ∈ active_filter g ->
  exists r,
    patch_ts g p (Z.of_nat n) w = Some r
    /\ get_pid (msgbuf r.2) (window p j) = Some PID_NULL
    /\ (forall a, in_window (window p j) a ->
                  a <> (window p j + 1)%nat -> a <> (window p j + 2)%nat ->
                  msgbuf r.2 !! a = msgbuf w !! a)
    /\ flags_kept (msgbuf w) (msgbuf r.2) (window p j).
Proof.
  intros Hg Hlen Hj Hsync Hpid Hin.
  destruct (patch_ts_spec g w p n Hg Hlen) as (m' & -> & Hlen' & _ & Hwin).
  eexists. split; [reflexivity|]. cbn [snd msgbuf].
  set (m := msgbuf w) in *. set (q := window p j) in *.
  assert (Hq : (q + 187 < length m)%nat) by (subst q; ts_arith).
  destruct (pkt_of_listed g m q pid Hsync Hpid Hin) as (_ & Hl & _).
  assert (Hw : forall a, in_window q a -> m' !! a = null_at m q !! a).
  { intros a Ha. rewrite (Hwin j a Hj Ha). fold q. unfold after_turn.
    by rewrite Hl. }
  destruct (lookup_lt_is_Some_2 m (q + 1)%nat ltac:(lia)) as [b Hb].
  split; [|split].
  - rewrite (same_pid_bytes_get_pid (null_at m q) m' q)
      by (repeat split; apply Hw; ts_arith).
    apply get_pid_null_at. lia.
  - intros a Ha H1 H2. rewrite (Hw a Ha). by apply null_at_other.
  - apply (flags_kept_intro m m' q b 0x1F Hb).
    + rewrite Hw by ts_arith. apply null_at_byte1; [lia|done].
    + rewrite Hw by ts_arith. apply null_at_other; lia.
    + rewrite Hw by ts_arith. apply null_at_other; lia.
Qed.

Lemma patch_ts_nulls_listed_pid_witness :
  exists r,
    patch_ts (filter_globals [100; 200]) 12 2
             (quiet (rtp_header ++ packet_pid200 ++ packet_pid100)) = Some r
    /\ get_pid (msgbuf r.2) (window 12 1) = Some PID_NULL
    /\ (forall a, in_window (window 12 1) a ->
                  a <> (window 12 1 + 1)%nat -> a <> (window 12 1 + 2)%nat ->
                  msgbuf r.2 !! a
                  = (rtp_header ++ packet_pid200 ++ packet_pid100) !! a)
    /\ flags_kept (rtp_header ++ packet_pid200 ++ packet_pid100)
                  (msgbuf r.2) (window 12 1).
Proof.
  apply (patch_ts_nulls_listed_pid (filter_globals [100; 200])
           (quiet (rtp_header ++ packet_pid200 ++ packet_pid100))
           12 2 1 100).
  - unfold globals_ok. vm_compute. split; discriminate.
  - vm_compute. lia.
  - lia.
  - vm_compute. reflexivity.
  - vm_compute. reflexivity.
  - vm_compute. apply list_elem_of_here.
Defined.

(** * What one more window adds to a run *)

Lemma patch_ts_prefix_step g w p n j :
  globals_ok g ->
  (p + Z.to_nat TS_LEN * n <= length (msgbuf w))%nat ->
  (j < n)%nat ->
  exists r0 r1,
    patch_ts g p (Z.of_nat j) w = Some r0
    /\ patch_ts g p (Z.of_nat (S j)) w = Some r1
    /\ r1.1 = r0.1 + pkt_hits g (msgbuf w) (window p j)
    /\ stdout r1.2
       = stdout r0.2
         ++ (if pkt_bad (msgbuf w) (window p j) then [SyncErrorLine] else []).
Proof.
  intros Hg Hlen Hj.
  destruct (patch_ts_spec g w p j Hg ltac:(ts_arith)) as (m0 & E0 & _).
  destruct (patch_ts_spec g w p (S j) Hg ltac:(ts_arith)) as (m1 & E1 & _).
  eexists _, _. split; [exact E0|]. split; [exact E1|].
  cbn [fst snd stdout]. split; [apply sum_hits_snoc|].
  rewrite sync_errors_snoc, replicate_add, app_assoc.
  by destruct (pkt_bad _ _).
Qed.

Lemma check_sync_bad m q b :
  m !! q = Some b -> b <> TS_SYNC -> check_sync m q = Some false.
Proof.
  intros Hb Hne. unfold check_sync, hdr_sync, load. rewrite Hb.
  cbn [mbind option_bind]. f_equal. apply Z.eqb_neq. congruence.
Qed.

(** * Sync errors *)

(** C3 (as the code has it). [patch_ts] returns one number, the count of
    patches; it keeps no count of sync errors.  For every window whose
    first byte is not 0x47 it prints one "sync error !" line, so a run over
    [n] windows prints as many lines as it meets such windows, and such a
    window adds nothing to the number returned. *)
Theorem patch_ts_prints_sync_errors (g : globals) (w : world) (p n : nat) :
  globals_ok g ->
  (p + Z.to_nat TS_LEN * n <= length (msgbuf w))%nat ->
  exists r,
    patch_ts g p (Z.of_nat n) w = Some r
    /\ r.1 = sum_hits g (msgbuf w) p n
    /\ stdout r.2
       = stdout w ++ replicate (sync_errors (msgbuf w) p n) SyncErrorLine
    /\ (forall j b,
          (j < n)%nat ->
          msgbuf w !! window p j = Some b -> b <> TS_SYNC ->
          exists r0 r1,
            patch_ts g p (Z.of_nat j) w = Some r0
            /\ patch_ts g p (Z.of_nat (S j)) w = Some r1
            /\ stdout r1.2 = stdout r0.2 ++ [SyncErrorLine]
            /\ r1.1 = r0.1).
Proof.
  intros Hg Hlen.
  destruct (patch_ts_spec g w p n Hg Hlen) as (m' & E & _).
  eexists. split; [exact E|]. cbn [fst snd stdout].
  split; [done|]. split; [done|].
  intros j b Hj Hb Hne.
  destruct (patch_ts_prefix_step g w p n j Hg Hlen Hj)
    as (r0 & r1 & E0 & E1 & Hcount & Hout).
  destruct (pkt_of_bad_sync g _ _ (check_sync_bad _ _ _ Hb Hne))
    as (Hbad & _ & Hhits).
  rewrite Hbad in Hout. rewrite Hhits, Z.add_0_r in Hcount.
  by exists r0, r1.
Qed.

Lemma patch_ts_prints_sync_errors_witness :
  exists r,
    patch_ts (filter_globals [100]) 12 2
             (quiet (rtp_header ++ packet_nosync ++ packet_pid100)) = Some r
    /\ r.1 = sum_hits (filter_globals [100])
                      (rtp_header ++ packet_nosync ++ packet_pid100) 12 2
    /\ stdout r.2
       = [] ++ replicate
                 (sync_errors (rtp_header ++ packet_nosync ++ packet_pid100)
                              12 2) SyncErrorLine
    /\ (forall j b,
          (j < 2)%nat ->
          (rtp_header ++ packet_nosync ++ packet_pid100) !! window 12 j
          = Some b ->
          b <> TS_SYNC ->
          exists r0 r1,
            patch_ts (filter_globals [100]) 12 (Z.of_nat j)
                     (quiet (rtp_header ++ packet_nosync ++ packet_pid100))
            = Some r0
            /\ patch_ts (filter_globals [100]) 12 (Z.of_nat (S j))
                        (quiet (rtp_header ++ packet_nosync ++ packet_pid100))
               = Some r1
            /\ stdout r1.2 = stdout r0.2 ++ [SyncErrorLine]
            /\ r1.1 = r0.1).
Proof.
  apply (patch_ts_prints_sync_errors (filter_globals [100])
           (quiet (rtp_header ++ packet_nosync ++ packet_pid100)) 12 2).
  - unfold globals_ok. vm_compute. split; discriminate.
  - vm_compute. lia.
Defined.

(** C3 (as the spec has it) fails: the number [patch_ts] returns does not
    determine how many sync errors the run met.  A packet with a broken
    sync byte and a packet with an unlisted PID both make it return 0. *)
Lemma patch_ts_return_hides_sync_errors :
  ~ exists f : Z -> nat,
      forall m r,
        patch_ts (filter_globals [100]) 0 1 (quiet m) = Some r ->
        f r.1 = sync_errors m 0 1.
Proof.
  intros [f Hf].
  pose proof (Hf packet_nosync _ eq_refl) as H1.
  pose proof (Hf packet_pid200 _ eq_refl) as H2.
  vm_compute in H1, H2. congruence.
Qed.

(** * Counting *)

(** Without PID 8191 in the filter set, a packet with a listed PID adds
    exactly one to the count, however often its PID is listed. *)
Lemma patch_ts_counts_once g w p n j pid :
  globals_ok g ->
  (p + Z.to_nat TS_LEN * n <= length (msgbuf w))%nat ->
  (j < n)%nat ->
  check_sync (msgbuf w) (window p j) = Some true ->
  get_pid (msgbuf w) (window p j) = Some pid ->
  pid ∈ active_filter g ->
  PID_NULL ∉ active_filter g ->
  exists r0 r1,
    patch_ts g p (Z.of_nat j) w = Some r0
    /\ patch_ts g p (Z.of_nat (S j)) w = Some r1
    /\ r1.1 = r0.1 + 1.
Proof.
  intros Hg Hlen Hj Hsync Hpid Hin Hnull.
  destruct (patch_ts_prefix_step g w p n j Hg Hlen Hj)
    as (r0 & r1 & E0 & E1 & Hcount & _).
  destruct (pkt_of_listed g _ _ pid Hsync Hpid Hin) as (_ & _ & Hhits).
  rewrite Hhits, (hits_once _ _ Hnull Hin) in Hcount.
  by exists r0, r1.
Qed.

(** C4 fails on the code when PID 8191 is listed: the scan has no [break]
    (it is commented out), so a NULL packet is counted once for each
    listing of 8191. *)
Theorem patch_ts_counts_null_packet_twice :
  fst <$> patch_ts (filter_globals [8191; 8191]) 0 1 (quiet packet_null)
  = Some 2.
Proof. vm_compute. reflexivity. Qed.

(** The same when 8191 is listed after the PID of the packet. *)
Example patch_ts_counts_pid100_twice :
  fst <$> patch_ts (filter_globals [100; 8191]) 0 1 (quiet packet_pid100)
  = Some 2.
Proof. vm_compute. reflexivity. Qed.

(** * Packets whose PID is not listed *)

(** C6. A window with sync byte 0x47 whose PID is not in the filter set
    comes out of [patch_ts] byte for byte as it went in, and the count is
    the same after that window as before it. *)
Theorem patch_ts_keeps_unlisted (g : globals) (w : world) (p n j : nat)
    (pid : Z) :
  globals_ok g ->
  (p + Z.to_nat TS_LEN * n <= length (msgbuf w))%nat ->
  (j < n)%nat ->
  check_sync (msgbuf w) (window p j) = Some true ->
  get_pid (msgbuf w) (window p j) = Some pid ->
  pid ∉ active_filter g ->
  exists r0 r1 r,
    patch_ts g p (Z.of_nat j) w = Some r0
    /\ patch_ts g p (Z.of_nat (S j)) w = Some r1
    /\ r1.1 = r0.1
    /\ patch_ts g p (Z.of_nat n) w = Some r
    /\ (forall a, in_window (window p j) a -> msgbuf r.2 !! a = msgbuf w !! a).
Proof.
  intros Hg Hlen Hj Hsync Hpid Hnot.
  destruct (patch_ts_prefix_step g w p n j Hg Hlen Hj)
    as (r0 & r1 & E0 & E1 & Hcount & _).
  destruct (pkt_of_unlisted g _ _ pid Hsync Hpid Hnot) as (_ & Hl & Hhits).
  rewrite Hhits, Z.add_0_r in Hcount.
  destruct (patch_ts_spec g w p n Hg Hlen) as (m' & E & _ & _ & Hwin).
  exists r0, r1. eexists. repeat (split; [eassumption|]).
  intros a Ha. cbn [snd msgbuf]. rewrite (Hwin j a Hj Ha).
  unfold after_turn. by rewrite Hl.
Qed.

Lemma patch_ts_keeps_unlisted_witness :
  exists r0 r1 r,
    patch_ts (filter_globals [100]) 0 (Z.of_nat 1)
             (quiet (packet_pid100 ++ packet_pid200)) = Some r0
    /\ patch_ts (filter_globals [100]) 0 (Z.of_nat 2)
                (quiet (packet_pid100 ++ packet_pid200)) = Some r1
    /\ r1.1 = r0.1
    /\ patch_ts (filter_globals [100]) 0 (Z.of_nat 2)
                (quiet (packet_pid100 ++ packet_pid200)) = Some r
    /\ (forall a, in_window (window 0 1) a ->
                  msgbuf r.2 !! a = (packet_pid100 ++ packet_pid200) !! a).
Proof.
  apply (patch_ts_keeps_unlisted (filter_globals [100])
           (quiet (packet_pid100 ++ packet_pid200)) 0 2 1 200).
  - unfold globals_ok. vm_compute. split; discriminate.
  - vm_compute. lia.
  - lia.
  - vm_compute. reflexivity.
  - vm_compute. reflexivity.
  - vm_compute. intros H. apply list_elem_of_singleton in H. discriminate.
Defined.

(** * Patching twice *)

Lemma after_turn_settled g m q :
  (q + 2 < length m)%nat ->
  PID_NULL ∉ active_filter g ->
  pkt_listed g (after_turn g m q) q = false.
Proof.
  intros Hlen Hnull. unfold after_turn.
  destruct (pkt_listed g m q) eqn:E; [|exact E].
  unfold pkt_listed. rewrite get_pid_null_at by lia.
  destruct (check_sync _ _) as [[]|]; try reflexivity.
  by apply bool_decide_eq_false_2.
Qed.

(** C5. When 8191 is not in the filter set, a second run of [patch_ts]
    over the buffer the first run left, with the same filter set, returns 0
    and leaves every byte as it is. *)
Theorem patch_ts_idempotent (g : globals) (w : world) (p n : nat) :
  globals_ok g ->
  (p + Z.to_nat TS_LEN * n <= length (msgbuf w))%nat ->
  PID_NULL ∉ active_filter g ->
  exists r1 r2,
    patch_ts g p (Z.of_nat n) w = Some r1
    /\ patch_ts g p (Z.of_nat n) r1.2 = Some r2
    /\ r2.1 = 0
    /\ msgbuf r2.2 = msgbuf r1.2.
Proof.
  intros Hg Hlen Hnull.
  destruct (patch_ts_spec g w p n Hg Hlen) as (m1 & E1 & Hlen1 & _ & Hwin1).
  set (w1 := {| msgbuf := m1; stdout := _ |}) in E1.
  destruct (patch_ts_spec g w1 p n Hg ltac:(cbn [w1 msgbuf]; lia))
    as (m2 & E2 & Hlen2 & Hout2 & Hwin2).
  cbn [w1 msgbuf] in *.
  assert (Hsettled : forall j, (j < n)%nat ->
                               pkt_listed g m1 (window p j) = false).
  { intros j Hj.
    rewrite (pkt_listed_ext g (after_turn g (msgbuf w) (window p j)) m1)
      by (repeat split; apply Hwin1; ts_arith).
    apply after_turn_settled; [ts_arith|done]. }
  eexists _, _. split; [exact E1|]. split; [exact E2|].
  cbn [fst snd msgbuf]. split.
  - apply sum_hits_zero. intros j Hj. apply pkt_unlisted_hits. auto.
  - apply list_eq. intros a.
    destruct (window_cover p n a) as [Ha|[Ha|(j & Hj & Ha)]];
      [apply Hout2; lia|apply Hout2; lia|].
    rewrite (Hwin2 j a Hj Ha). unfold after_turn. by rewrite Hsettled.
Qed.

Lemma patch_ts_idempotent_witness :
  exists r1 r2,
    patch_ts (filter_globals [100; 200; 100]) 12 (Z.of_nat 3)
             (quiet (rtp_header ++ packet_pid100 ++ packet_nosync
                       ++ packet_pid200)) = Some r1
    /\ patch_ts (filter_globals [100; 200; 100]) 12 (Z.of_nat 3) r1.2 = Some r2
    /\ r2.1 = 0
    /\ msgbuf r2.2 = msgbuf r1.2.
Proof.
  apply (patch_ts_idempotent (filter_globals [100; 200; 100])
           (quiet (rtp_header ++ packet_pid100 ++ packet_nosync
                     ++ packet_pid200)) 12 3).
  - unfold globals_ok. vm_compute. split; discriminate.
  - vm_compute. lia.
  - vm_compute. intros H.
    repeat (apply elem_of_cons in H as [H|H]; [discriminate|]).
    by apply elem_of_nil in H.
Defined.

(** * One turn of the processing loop *)

Lemma frame_nat (N : nat) :
  exists n off : nat,
    frame (Z.of_nat N) = (Z.of_nat n, Z.of_nat off)
    /\ (off + Z.to_nat TS_LEN * n = N)%nat /\ (off < Z.to_nat TS_LEN)%nat.
Proof.
  exists (N / 188)%nat, (N mod 188)%nat.
  pose proof (Nat.div_mod_eq N 188).
  pose proof (Nat.mod_upper_bound N 188 ltac:(lia)).
  rewrite TS_LEN_nat. split; [|lia].
  replace (Z.of_nat N)
    with (Z.of_nat (N mod 188) + TS_LEN * Z.of_nat (N / 188))
    by (unfold TS_LEN; lia).
  apply frame_eq; unfold TS_LEN; lia.
Qed.

Lemma recvfrom_truncate payload m :
  recvfrom payload m = recvfrom (take (Z.to_nat MSGBUFSIZE) payload) m.
Proof.
  unfold recvfrom. rewrite length_take.
  replace (Z.to_nat (Z.min (Z.of_nat (Z.to_nat MSGBUFSIZE `min` length payload))
                           MSGBUFSIZE))
    with (Z.to_nat (Z.min (Z.of_nat (length payload)) MSGBUFSIZE))
    by (unfold MSGBUFSIZE; lia).
  rewrite take_take. do 3 f_equal. unfold MSGBUFSIZE. lia.
Qed.

Lemma msgbuf_display (c : bool) l w :
  msgbuf (if c then printf l w else w) = msgbuf w.
Proof. by destruct c. Qed.

Lemma main_turn_spec g st payload t (n off : nat) :
  globals_ok g ->
  length (msgbuf (mem st)) = Z.to_nat MSGBUFSIZE ->
  (length payload <= Z.to_nat MSGBUFSIZE)%nat ->
  frame (Z.of_nat (length payload)) = (Z.of_nat n, Z.of_nat off) ->
  exists st' d,
    main_turn g st {| recv := RecvDatagram payload; now := t |} = Some st'
    /\ sent st' = sent st ++ [d]
    /\ length d = length payload
    /\ length (msgbuf (mem st')) = Z.to_nat MSGBUFSIZE
    /\ (forall a, (a < off)%nat -> d !! a = payload !! a)
    /\ (forall j a, (j < n)%nat -> in_window (window off j) a ->
                    d !! a = after_turn g payload (window off j) !! a)
    /\ count_patched st'
       = to_ull (count_patched st + sum_hits g payload off n).
Proof.
  intros Hg Hbuf Hmax Hframe.
  assert (HN : (off + Z.to_nat TS_LEN * n = length payload)%nat).
  { destruct (frame_nat (length payload)) as (n' & off' & E & H & _).
    rewrite Hframe in E. injection E as En Eo. lia. }
  unfold main_turn. cbn [recv now].
  rewrite recvfrom_length by (unfold MSGBUFSIZE in *; lia).
  rewrite Hframe. rewrite !Nat2Z.id.
  set (m0 := payload ++ drop (length payload) (msgbuf (mem st))).
  assert (Hm0 : length m0 = Z.to_nat MSGBUFSIZE).
  { subst m0. rewrite length_app, length_drop. lia. }
  assert (Hpre : forall a, (a < length payload)%nat -> m0 !! a = payload !! a).
  { intros a Ha. subst m0. by apply lookup_app_l. }
  destruct (patch_ts_spec g (with_msgbuf m0 (mem st)) off n Hg
              ltac:(cbn [with_msgbuf msgbuf]; lia))
    as (m' & -> & Hlen' & Hout & Hwin).
  cbn [with_msgbuf msgbuf stdout mbind option_bind fst snd] in *.
  eexists _, _. split; [reflexivity|].
  cbn [sent mem count_patched]. rewrite !msgbuf_display. cbn [msgbuf].
  split; [reflexivity|]. split; [rewrite length_take; lia|].
  split; [lia|]. split; [|split].
  - intros a Ha. rewrite lookup_take_lt by lia.
    rewrite Hout by lia. apply Hpre. lia.
  - intros j a Hj Ha.
    assert (Hq : (window off j + Z.to_nat TS_LEN <= length payload)%nat).
    { ts_arith. }
    rewrite lookup_take_lt by ts_arith.
    rewrite (Hwin j a Hj Ha).
    apply after_turn_ext.
    + ts_arith.
    + ts_arith.
    + repeat split; apply Hpre; ts_arith.
    + apply Hpre. ts_arith.
  - f_equal. f_equal. apply sum_hits_ext.
    intros a Ha. apply Hpre. lia.
Qed.

Lemma main_turn_total g st inp :
  globals_ok g ->
  length (msgbuf (mem st)) = Z.to_nat MSGBUFSIZE ->
  exists st',
    main_turn g st inp = Some st'
    /\ length (msgbuf (mem st')) = Z.to_nat MSGBUFSIZE.
Proof.
  intros Hg Hbuf. destruct inp as [[|payload] t].
  - exists st. by split.
  - assert (E : main_turn g st {| recv := RecvDatagram payload; now := t |}
              = main_turn g st
                  {| recv := RecvDatagram (take (Z.to_nat MSGBUFSIZE) payload);
                     now := t |}).
    { unfold main_turn. cbn [recv now]. by rewrite recvfrom_truncate. }
    rewrite E.
    destruct (frame_nat (length (take (Z.to_nat MSGBUFSIZE) payload)))
      as (n & off & Hframe & _).
    assert (Hmax : (length (take (Z.to_nat MSGBUFSIZE) payload)
                    <= Z.to_nat MSGBUFSIZE)%nat)
      by (rewrite length_take; lia).
    destruct (main_turn_spec g st _ t n off Hg Hbuf Hmax Hframe)
      as (st' & d & Hrun & _ & _ & Hlen & _).
    by exists st'.
Qed.

Lemma main_loop_total g inps :
  globals_ok g ->
  forall st,
    length (msgbuf (mem st)) = Z.to_nat MSGBUFSIZE ->
    exists st',
      main_loop g st inps = Some st'
      /\ length (msgbuf (mem st')) = Z.to_nat MSGBUFSIZE.
Proof.
  intros Hg. induction inps as [|inp inps IH]; intros st Hbuf.
  - exists st. by split.
  - destruct (main_turn_total g st inp Hg Hbuf) as (st1 & E1 & Hbuf1).
    cbn [main_loop]. rewrite E1. cbn [mbind option_bind]. by apply IH.
Qed.

(** * Sync errors and short datagrams in the processing loop *)

Lemma patch_ts_skips_bad_sync g w p n j b :
  globals_ok g ->
  (p + Z.to_nat TS_LEN * n <= length (msgbuf w))%nat ->
  (j < n)%nat ->
  msgbuf w !! window p j = Some b -> b <> TS_SYNC ->
  exists r,
    patch_ts g p (Z.of_nat n) w = Some r
    /\ (forall a, in_window (window p j) a -> msgbuf r.2 !! a = msgbuf w !! a).
Proof.
  intros Hg Hlen Hj Hb Hne.
  destruct (patch_ts_spec g w p n Hg Hlen) as (m' & E & _ & _ & Hwin).
  eexists. split; [exact E|]. intros a Ha. cbn [snd msgbuf].
  rewrite (Hwin j a Hj Ha). unfold after_turn.
  destruct (pkt_of_bad_sync g _ _ (check_sync_bad _ _ _ Hb Hne)) as (_ & -> & _).
  reflexivity.
Qed.

(** C7. A datagram with a window whose first byte is not 0x47 is still
    sent, once and at its full length; in the datagram sent that window and
    the leading bytes are as received, and the windows before and after it
    are patched as usual: where the sync byte is right and the PID is
    listed, the PID sent is 8191. *)
Theorem sync_error_keeps_datagram (g : globals) (st : main_state)
    (payload : list Z) (t : Z) (n off j : nat) (b : Z) :
  globals_ok g ->
  length (msgbuf (mem st)) = Z.to_nat MSGBUFSIZE ->
  (length payload <= Z.to_nat MSGBUFSIZE)%nat ->
  frame (Z.of_nat (length payload)) = (Z.of_nat n, Z.of_nat off) ->
  (j < n)%nat ->
  payload !! window off j = Some b ->
  b <> TS_SYNC ->
  exists st' d,
    main_turn g st {| recv := RecvDatagram payload; now := t |} = Some st'
    /\ sent st' = sent st ++ [d]
    /\ length d = length payload
    /\ (forall a, in_window (window off j) a -> d !! a = payload !! a)
    /\ (forall a, (a < off)%nat -> d !! a = payload !! a)
    /\ (forall i pid,
          (i < n)%nat ->
          check_sync payload (window off i) = Some true ->
          get_pid payload (window off i) = Some pid ->
          pid ∈ active_filter g ->
          get_pid d (window off i) = Some PID_NULL).
Proof.
  intros Hg Hbuf Hmax Hframe Hj Hb Hne.
  assert (HN : (off + Z.to_nat TS_LEN * n = length payload)%nat).
  { destruct (frame_nat (length payload)) as (n' & off' & E & H & _).
    rewrite Hframe in E. injection E as En Eo. lia. }
  destruct (main_turn_spec g st payload t n off Hg Hbuf Hmax Hframe)
    as (st' & d & Hrun & Hsent & Hlen & _ & Hhead & Hwin & _).
  exists st', d. repeat (split; [assumption|]). split; [|split; [exact Hhead|]].
  - intros a Ha. rewrite (Hwin j a Hj Ha). unfold after_turn.
    destruct (pkt_of_bad_sync g _ _ (check_sync_bad _ _ _ Hb Hne))
      as (_ & -> & _).
    reflexivity.
  - intros i pid Hi Hsync Hpid Hin.
    destruct (pkt_of_listed g _ _ pid Hsync Hpid Hin) as (_ & Hl & _).
    rewrite (same_pid_bytes_get_pid (null_at payload (window off i)) d).
    + apply get_pid_null_at. ts_arith.
    + repeat split; rewrite (Hwin i) by ts_arith;
        unfold after_turn; by rewrite Hl.
Qed.

Lemma sync_error_keeps_datagram_witness :
  exists st' d,
    main_turn (filter_globals [100]) initial_state
      {| recv := RecvDatagram (rtp_header ++ packet_nosync ++ packet_pid100);
         now := 7 |} = Some st'
    /\ sent st' = sent initial_state ++ [d]
    /\ length d = length (rtp_header ++ packet_nosync ++ packet_pid100)
    /\ (forall a, in_window (window 12 0) a ->
                  d !! a = (rtp_header ++ packet_nosync ++ packet_pid100) !! a)
    /\ (forall a, (a < 12)%nat ->
                  d !! a = (rtp_header ++ packet_nosync ++ packet_pid100) !! a)
    /\ (forall i pid,
          (i < 2)%nat ->
          check_sync (rtp_header ++ packet_nosync ++ packet_pid100)
                     (window 12 i) = Some true ->
          get_pid (rtp_header ++ packet_nosync ++ packet_pid100)
                  (window 12 i) = Some pid ->
          pid ∈ active_filter (filter_globals [100]) ->
          get_pid d (window 12 i) = Some PID_NULL).
Proof.
  apply (sync_error_keeps_datagram (filter_globals [100]) initial_state
           (rtp_header ++ packet_nosync ++ packet_pid100) 7 2 12 0 0x46).
  - unfold globals_ok. vm_compute. split; discriminate.
  - vm_compute. reflexivity.
  - vm_compute. lia.
  - vm_compute. reflexivity.
  - lia.
  - vm_compute. reflexivity.
  - vm_compute. discriminate.
Defined.

(** C8. The processing loop never faults, whatever it receives (a failed
    receive, a datagram of any length and content), and for a datagram
    shorter than 188 bytes the framing gives no packet, [patch_ts] with no
    packet returns at once without touching anything, and the datagram is
    sent as it was received. *)
Theorem framing_and_patching_total (g : globals) (st : main_state) :
  globals_ok g ->
  length (msgbuf (mem st)) = Z.to_nat MSGBUFSIZE ->
  (forall inps, exists st', main_loop g st inps = Some st')
  /\ (forall payload t,
        (length payload < Z.to_nat TS_LEN)%nat ->
        frame (Z.of_nat (length payload)) = (0, Z.of_nat (length payload))
        /\ (forall p w, patch_ts g p 0 w = Some (0, w))
        /\ exists st',
             main_turn g st {| recv := RecvDatagram payload; now := t |}
             = Some st'
             /\ sent st' = sent st ++ [payload]
             /\ count_patched st' = to_ull (count_patched st + 0)).
Proof.
  intros Hg Hbuf. split.
  - intros inps. destruct (main_loop_total g inps Hg st Hbuf) as (st' & E & _).
    by exists st'.
  - intros payload t Hshort. rewrite TS_LEN_nat in Hshort.
    assert (Hframe : frame (Z.of_nat (length payload))
                     = (Z.of_nat 0, Z.of_nat (length payload))).
    { pose proof (frame_eq 0 (Z.of_nat (length payload))) as E.
      rewrite Z.mul_0_r, Z.add_0_r in E. apply E; unfold TS_LEN; lia. }
    split; [exact Hframe|]. split; [reflexivity|].
    destruct (main_turn_spec g st payload t 0 (length payload) Hg Hbuf
                ltac:(unfold MSGBUFSIZE; lia) Hframe)
      as (st' & d & Hrun & Hsent & Hlen & _ & Hhead & _ & Hcount).
    exists st'. split; [exact Hrun|]. split; [|exact Hcount].
    rewrite Hsent. do 2 f_equal. apply list_eq. intros a.
    destruct (decide (a < length payload)%nat); [by apply Hhead|].
    rewrite !lookup_ge_None_2 by lia. reflexivity.
Qed.

Lemma framing_and_patching_total_witness :
  (forall inps, exists st',
      main_loop (filter_globals [100; 200]) initial_state inps = Some st')
  /\ (forall payload t,
        (length payload < Z.to_nat TS_LEN)%nat ->
        frame (Z.of_nat (length payload)) = (0, Z.of_nat (length payload))
        /\ (forall p w, patch_ts (filter_globals [100; 200]) p 0 w = Some (0, w))
        /\ exists st',
             main_turn (filter_globals [100; 200]) initial_state
                       {| recv := RecvDatagram payload; now := t |}
             = Some st'
             /\ sent st' = sent initial_state ++ [payload]
             /\ count_patched st' = to_ull (count_patched initial_state + 0)).
Proof.
  apply (framing_and_patching_total (filter_globals [100; 200]) initial_state).
  - unfold globals_ok. vm_compute. split; discriminate.
  - vm_compute. reflexivity.
Defined.

(** * The PID list from the command line *)

Lemma push_pid_ok v g :
  0 <= Pid2PatchCount g < Z.of_nat (length (Pid2Patch g)) ->
  exists g',
    push_pid v g = Done g'
    /\ Pid2PatchCount g' = Pid2PatchCount g + 1
    /\ length (Pid2Patch g') = length (Pid2Patch g).
Proof.
  intros H. unfold push_pid. rewrite decide_True by done.
  eexists. split; [reflexivity|]. cbn. by rewrite length_insert.
Qed.

Lemma push_pid_full v g :
  Pid2PatchCount g = Z.of_nat (length (Pid2Patch g)) ->
  push_pid v g = Fault (Z.of_nat (length (Pid2Patch g))).
Proof.
  intros H. unfold push_pid. rewrite decide_False by lia. by rewrite H.
Qed.

Lemma parse_pids_ok argv iters :
  forall arg g,
    0 <= Pid2PatchCount g ->
    Pid2PatchCount g + Z.of_nat iters <= Z.of_nat (length (Pid2Patch g)) ->
    exists g',
      parse_pids argv iters arg g = Done g'
      /\ Pid2PatchCount g' = Pid2PatchCount g + Z.of_nat iters
      /\ length (Pid2Patch g') = length (Pid2Patch g).
Proof.
  induction iters as [|iters IH]; intros arg g H0 Hfit.
  - exists g. cbn. repeat split. lia.
  - destruct (push_pid_ok (atoi (argv !!! arg)) g ltac:(lia))
      as (g1 & E & Hc & Hl).
    cbn [parse_pids]. rewrite E.
    destruct (IH (S arg) g1 ltac:(lia) ltac:(lia)) as (g' & E' & Hc' & Hl').
    exists g'. split; [exact E'|]. split; lia.
Qed.

Lemma parse_pids_overflow argv iters :
  forall arg g,
    0 <= Pid2PatchCount g <= Z.of_nat (length (Pid2Patch g)) ->
    Z.of_nat (length (Pid2Patch g)) < Pid2PatchCount g + Z.of_nat iters ->
    parse_pids argv iters arg g = Fault (Z.of_nat (length (Pid2Patch g))).
Proof.
  induction iters as [|iters IH]; intros arg g H0 Hover; [lia|].
  cbn [parse_pids].
  destruct (decide (Pid2PatchCount g = Z.of_nat (length (Pid2Patch g))))
    as [Hfull|Hroom].
  - by rewrite push_pid_full.
  - destruct (push_pid_ok (atoi (argv !!! arg)) g ltac:(lia))
      as (g1 & -> & Hc & Hl).
    rewrite <- Hl. apply IH; lia.
Qed.

(** With at most 100 PID arguments [parse_args] stays inside [Pid2Patch]
    and leaves globals that the patcher can use. *)
Lemma parse_args_within_capacity argv :
  (5 <= length argv <= 5 + Pid2Patch_capacity)%nat ->
  exists g,
    parse_args argv initial_globals = Done g
    /\ Pid2PatchCount g = Z.of_nat (length argv - 5)
    /\ length (Pid2Patch g) = Pid2Patch_capacity
    /\ globals_ok g.
Proof.
  intros H. unfold parse_args. rewrite decide_False by lia.
  set (g0 := {| InputMCast := _ |}).
  destruct (parse_pids_ok argv (length argv - 5) 5 g0) as (g & E & Hc & Hl).
  - cbn. lia.
  - cbn. rewrite ?length_replicate. unfold Pid2Patch_capacity in *. lia.
  - exists g. split; [exact E|]. cbn in Hc, Hl. rewrite ?length_replicate in Hl.
    unfold globals_ok, Pid2Patch_capacity in *. repeat split; lia.
Qed.

Lemma parse_args_usage argv :
  (length argv < 5)%nat -> parse_args argv initial_globals = Exit 1.
Proof. intros H. unfold parse_args. by rewrite decide_True. Qed.

(** C9 fails on the code: [parse_args] does not compare the number of PID
    arguments with the size of [Pid2Patch]; with more than 100 of them it
    stores the first 100 and then writes at index 100, past the end of the
    array. *)
Theorem parse_args_overflows_Pid2Patch (argv : list string) :
  (5 + Pid2Patch_capacity < length argv)%nat ->
  parse_args argv initial_globals = Fault (Z.of_nat Pid2Patch_capacity).
Proof.
  intros H. unfold parse_args. rewrite decide_False by lia.
  set (g0 := {| InputMCast := _ |}).
  rewrite (parse_pids_overflow argv (length argv - 5) 5 g0).
  - cbn. by rewrite ?length_replicate.
  - cbn. rewrite ?length_replicate. lia.
  - cbn. rewrite ?length_replicate. unfold Pid2Patch_capacity in *. lia.
Qed.

Lemma parse_args_overflows_Pid2Patch_witness :
  parse_args (command_line 101) initial_globals
  = Fault (Z.of_nat Pid2Patch_capacity).
Proof.
  apply (parse_args_overflows_Pid2Patch (command_line 101)).
  vm_compute. lia.
Defined.

(** * Further properties of the patcher *)

(** X1. [patch_ts] writes nothing but PID bytes: the buffer keeps its
    length, and every byte that is not byte 1 or byte 2 of one of the
    windows it was given, be it before the first window, after the last,
    or in a window, is as before. *)
Theorem patch_ts_writes_only_pid_bytes (g : globals) (w : world) (p n : nat) :
  globals_ok g ->
  (p + Z.to_nat TS_LEN * n <= length (msgbuf w))%nat ->
  exists r,
    patch_ts g p (Z.of_nat n) w = Some r
    /\ length (msgbuf r.2) = length (msgbuf w)
    /\ (forall a, ~ pid_byte_of p n a -> msgbuf r.2 !! a = msgbuf w !! a).
Proof.
  intros Hg Hlen.
  destruct (patch_ts_spec g w p n Hg Hlen) as (m' & E & Hlen' & Hout & Hwin).
  eexists. split; [exact E|]. cbn [snd msgbuf]. split; [exact Hlen'|].
  intros a Hno.
  destruct (window_cover p n a) as [Ha|[Ha|(j & Hj & Ha)]];
    [apply Hout; lia|apply Hout; lia|].
  rewrite (Hwin j a Hj Ha).
  apply after_turn_other; intros ->; apply Hno; exists j; auto.
Qed.

Lemma patch_ts_writes_only_pid_bytes_witness :
  exists r,
    patch_ts (filter_globals [100]) 12 (Z.of_nat 1)
             (quiet (rtp_header ++ packet_pid100)) = Some r
    /\ length (msgbuf r.2) = length (rtp_header ++ packet_pid100)
    /\ (forall a, ~ pid_byte_of 12 1 a ->
                  msgbuf r.2 !! a = (rtp_header ++ packet_pid100) !! a).
Proof.
  apply (patch_ts_writes_only_pid_bytes (filter_globals [100])
           (quiet (rtp_header ++ packet_pid100)) 12 1).
  - unfold globals_ok. vm_compute. split; discriminate.
  - vm_compute. lia.
Defined.

Lemma null_byte1_is_byte b :
  is_byte b -> is_byte (Z.lor (Z.land b (Z.lnot 0x1F)) 0x1F).
Proof.
  intros [H0 H1]. unfold is_byte.
  assert (E : Z.lor (Z.land b (Z.lnot 0x1F)) 0x1F = Z.lor b 0x1F).
  { rewrite mask_1F. apply Z.bits_inj'. intros i Hi. bits_rw.
    destruct (Z.ltb_spec i 5), (Z.testbit b i); reflexivity. }
  rewrite E.
  assert (Hnn : 0 <= Z.lor b 0x1F) by (apply Z.lor_nonneg; lia).
  split; [exact Hnn|].
  destruct (Z.eq_dec (Z.lor b 0x1F) 0) as [->|Hne]; [lia|].
  change 256 with (2 ^ 8). apply Z.log2_lt_pow2; [lia|].
  rewrite Z.log2_lor by lia. apply Z.max_lub_lt; [|reflexivity].
  destruct (Z.eq_dec b 0) as [->|]; [reflexivity|].
  apply Z.log2_lt_pow2; lia.
Qed.

Lemma null_at_bytes m q : Forall is_byte m -> Forall is_byte (null_at m q).
Proof.
  intros Hm. destruct (decide (q + 2 < length m)%nat) as [Hlen|Hlen].
  - destruct (lookup_lt_is_Some_2 m (q + 1)%nat ltac:(lia)) as [b Hb].
    destruct (null_at_eq m q b Hlen Hb) as [_ ->].
    apply Forall_insert; [apply Forall_insert; [exact Hm|]|].
    + unfold is_byte. lia.
    + apply null_byte1_is_byte. eapply Forall_lookup_1; eauto.
  - unfold null_at. rewrite set_pid_None by lia. exact Hm.
Qed.

(** X2. [patch_ts] turns a buffer of bytes into a buffer of bytes: what
    it stores in an [unsigned char] is in 0..255. *)
Theorem patch_ts_keeps_bytes (g : globals) (w : world) (p n : nat) :
  globals_ok g ->
  (p + Z.to_nat TS_LEN * n <= length (msgbuf w))%nat ->
  Forall is_byte (msgbuf w) ->
  exists r,
    patch_ts g p (Z.of_nat n) w = Some r /\ Forall is_byte (msgbuf r.2).
Proof.
  intros Hg Hlen Hm.
  destruct (patch_ts_spec g w p n Hg Hlen) as (m' & E & Hlen' & Hout & Hwin).
  eexists. split; [exact E|]. cbn [snd msgbuf].
  apply Forall_lookup_2. intros a x Hx.
  destruct (window_cover p n a) as [Ha|[Ha|(j & Hj & Ha)]].
  - rewrite Hout in Hx by lia. eapply Forall_lookup_1; eauto.
  - rewrite Hout in Hx by lia. eapply Forall_lookup_1; eauto.
  - rewrite (Hwin j a Hj Ha) in Hx. unfold after_turn in Hx.
    destruct (pkt_listed _ _ _).
    + eapply Forall_lookup_1; [apply null_at_bytes, Hm|exact Hx].
    + eapply Forall_lookup_1; eauto.
Qed.

Lemma sample_packets_are_bytes :
  Forall is_byte (rtp_header ++ packet_pid100 ++ packet_pid200).
Proof.
  apply Forall_forall. intros x Hx.
  assert (H : bool_decide (Forall (fun b => 0 <= b < 256)
                (rtp_header ++ packet_pid100 ++ packet_pid200)) = true)
    by (vm_compute; reflexivity).
  apply bool_decide_eq_true_1 in H.
  rewrite Forall_forall in H. apply H. exact Hx.
Qed.

Lemma patch_ts_keeps_bytes_witness :
  exists r,
    patch_ts (filter_globals [100]) 12 (Z.of_nat 2)
             (quiet (rtp_header ++ packet_pid100 ++ packet_pid200)) = Some r
    /\ Forall is_byte (msgbuf r.2).
Proof.
  apply (patch_ts_keeps_bytes (filter_globals [100])
           (quiet (rtp_header ++ packet_pid100 ++ packet_pid200)) 12 2).
  - unfold globals_ok. vm_compute. split; discriminate.
  - vm_compute. lia.
  - apply sample_packets_are_bytes.
Defined.

(** X3. The number [patch_ts] returns lies between 0 and the number of
    packets times the number of filter entries; with the seven packets of a
    full buffer and the hundred entries of [Pid2Patch] it fits an [int]. *)
Theorem patch_ts_count_in_range (g : globals) (w : world) (p n : nat) :
  globals_ok g ->
  (p + Z.to_nat TS_LEN * n <= length (msgbuf w))%nat ->
  exists r,
    patch_ts g p (Z.of_nat n) w = Some r
    /\ 0 <= r.1 <= Z.of_nat n * Pid2PatchCount g.
Proof.
  intros Hg Hlen.
  destruct (patch_ts_spec g w p n Hg Hlen) as (m' & E & _).
  eexists. split; [exact E|]. cbn [fst].
  pose proof (sum_hits_bounds g (msgbuf w) n p) as Hb.
  unfold active_filter in Hb. rewrite length_take in Hb.
  destruct Hg. nia.
Qed.

Lemma patch_ts_count_in_range_witness :
  exists r,
    patch_ts (filter_globals [100; 8191]) 0 (Z.of_nat 2)
             (quiet (packet_pid100 ++ packet_null)) = Some r
    /\ 0 <= r.1 <= Z.of_nat 2 * Pid2PatchCount (filter_globals [100; 8191]).
Proof.
  apply (patch_ts_count_in_range (filter_globals [100; 8191])
           (quiet (packet_pid100 ++ packet_null)) 0 2).
  - unfold globals_ok. vm_compute. split; discriminate.
  - vm_compute. lia.
Defined.

Lemma pkt_hits_listed g m q :
  PID_NULL ∉ active_filter g ->
  pkt_hits g m q = if pkt_listed g m q then 1 else 0.
Proof.
  intros Hnull. unfold pkt_hits, pkt_listed.
  destruct (check_sync m q) as [[]|]; try reflexivity.
  destruct (get_pid m q) as [pid|]; try reflexivity.
  destruct (bool_decide (pid ∈ active_filter g)) eqn:E.
  - apply bool_decide_eq_true_1 in E. by apply hits_once.
  - apply bool_decide_eq_false_1 in E. by apply hits_not_listed.
Qed.

Lemma sum_hits_listed_count g m n :
  PID_NULL ∉ active_filter g ->
  forall p, sum_hits g m p n = Z.of_nat (listed_count g m p n).
Proof.
  intros Hnull. induction n as [|n IH]; intros p; [reflexivity|].
  cbn [sum_hits listed_count]. rewrite IH, pkt_hits_listed by done.
  destruct (pkt_listed g m p); lia.
Qed.

(** X4. When 8191 is not in the filter set, the number [patch_ts] returns
    is the number of packets it was given that have the right sync byte and
    a PID in the filter set. *)
Theorem patch_ts_counts_listed_packets (g : globals) (w : world) (p n : nat) :
  globals_ok g ->
  (p + Z.to_nat TS_LEN * n <= length (msgbuf w))%nat ->
  PID_NULL ∉ active_filter g ->
  exists r,
    patch_ts g p (Z.of_nat n) w = Some r
    /\ r.1 = Z.of_nat (listed_count g (msgbuf w) p n).
Proof.
  intros Hg Hlen Hnull.
  destruct (patch_ts_spec g w p n Hg Hlen) as (m' & E & _).
  eexists. split; [exact E|]. cbn [fst]. by apply sum_hits_listed_count.
Qed.

Lemma patch_ts_counts_listed_packets_witness :
  exists r,
    patch_ts (filter_globals [100; 100]) 0 (Z.of_nat 3)
             (quiet (packet_pid100 ++ packet_nosync ++ packet_pid200)) = Some r
    /\ r.1 = Z.of_nat (listed_count (filter_globals [100; 100])
                         (packet_pid100 ++ packet_nosync ++ packet_pid200) 0 3).
Proof.
  apply (patch_ts_counts_listed_packets (filter_globals [100; 100])
           (quiet (packet_pid100 ++ packet_nosync ++ packet_pid200)) 0 3).
  - unfold globals_ok. vm_compute. split; discriminate.
  - vm_compute. lia.
  - vm_compute. intros H.
    repeat (apply elem_of_cons in H as [H|H]; [discriminate|]).
    by apply elem_of_nil in H.
Defined.

Lemma hits_null fs : hits fs PID_NULL = Z.of_nat (null_entries fs).
Proof.
  induction fs as [|f fs IH]; [reflexivity|]. cbn [hits null_entries].
  rewrite IH. destruct (PID_NULL =? f); lia.
Qed.

Lemma hits_first_match pre pid post :
  pid ∉ pre ->
  hits (pre ++ pid :: post) pid = 1 + Z.of_nat (null_entries post).
Proof.
  induction pre as [|f pre IH]; intros Hpre.
  - cbn [app hits]. rewrite Z.eqb_refl, hits_null. reflexivity.
  - apply not_elem_of_cons in Hpre as [Hne Hpre]. cbn [app hits].
    destruct (Z.eqb_spec pid f); [contradiction|]. by apply IH.
Qed.

(** X5. What a packet adds to the count: with the right sync byte and a
    PID whose first listing in the filter set is followed by the entries
    [post], the packet adds one plus the number of times 8191 occurs in
    [post] (the scan goes on after the match and meets the PID it has just
    written). *)
Theorem patch_ts_count_per_packet (g : globals) (w : world) (p n j : nat)
    (pid : Z) (pre post : list Z) :
  globals_ok g ->
  (p + Z.to_nat TS_LEN * n <= length (msgbuf w))%nat ->
  (j < n)%nat ->
  check_sync (msgbuf w) (window p j) = Some true ->
  get_pid (msgbuf w) (window p j) = Some pid ->
  active_filter g = pre ++ pid :: post ->
  pid ∉ pre ->
  exists r0 r1,
    patch_ts g p (Z.of_nat j) w = Some r0
    /\ patch_ts g p (Z.of_nat (S j)) w = Some r1
    /\ r1.1 = r0.1 + 1 + Z.of_nat (null_entries post).
Proof.
  intros Hg Hlen Hj Hsync Hpid Hf Hpre.
  destruct (patch_ts_prefix_step g w p n j Hg Hlen Hj)
    as (r0 & r1 & E0 & E1 & Hcount & _).
  exists r0, r1. split; [exact E0|]. split; [exact E1|].
  rewrite Hcount. unfold pkt_hits. rewrite Hsync, Hpid, Hf.
  rewrite hits_first_match by done. lia.
Qed.

Lemma patch_ts_count_per_packet_witness :
  exists r0 r1,
    patch_ts (filter_globals [200; 100; 8191; 100; 8191]) 0 (Z.of_nat 1)
             (quiet (packet_pid200 ++ packet_pid100)) = Some r0
    /\ patch_ts (filter_globals [200; 100; 8191; 100; 8191]) 0 (Z.of_nat 2)
                (quiet (packet_pid200 ++ packet_pid100)) = Some r1
    /\ r1.1 = r0.1 + 1 + Z.of_nat (null_entries [8191; 100; 8191]).
Proof.
  apply (patch_ts_count_per_packet
           (filter_globals [200; 100; 8191; 100; 8191])
           (quiet (packet_pid200 ++ packet_pid100)) 0 2 1 100
           [200] [8191; 100; 8191]).
  - unfold globals_ok. vm_compute. split; discriminate.
  - vm_compute. lia.
  - lia.
  - vm_compute. reflexivity.
  - vm_compute. reflexivity.
  - vm_compute. reflexivity.
  - intros H. apply list_elem_of_singleton in H. discriminate.
Defined.

(** * Runs of [patch_ts] compose *)

Lemma match_loop_acc g p iters :
  forall i n_patched m,
    match_loop g p iters i n_patched m
    = (fun r => (n_patched + r.1, r.2)) <$> match_loop g p iters i 0 m.
Proof.
  induction iters as [|iters IH]; intros i np m.
  - cbn. by rewrite Z.add_0_r.
  - cbn [match_loop].
    destruct (get_pid m p) as [pid|]; [|reflexivity].
    destruct (Pid2Patch g !! Z.to_nat i) as [f|]; [|reflexivity].
    cbn [mbind option_bind].
    destruct (pid =? f); [|apply IH].
    destruct (set_pid m p PID_NULL) as [m'|]; [|reflexivity].
    cbn [mbind option_bind].
    rewrite (IH (i + 1) (np + 1)), (IH (i + 1) (0 + 1)).
    destruct (match_loop g p iters (i + 1) 0 m') as [[k m'']|]; [|reflexivity].
    cbn. do 2 f_equal. lia.
Qed.

Lemma patch_loop_acc g n :
  forall p n_patched w,
    patch_loop g n p n_patched w
    = (fun r => (n_patched + r.1, r.2)) <$> patch_loop g n p 0 w.
Proof.
  induction n as [|n IH]; intros p np w.
  - cbn. by rewrite Z.add_0_r.
  - cbn [patch_loop].
    destruct (check_sync (msgbuf w) p) as [ok|]; [|reflexivity].
    cbn [mbind option_bind]. destruct ok; cbn [negb].
    + rewrite (match_loop_acc g p _ 0 np).
      destruct (match_loop g p _ 0 0 (msgbuf w)) as [[k m']|]; [|reflexivity].
      cbn [fmap option_fmap option_map mbind option_bind fst snd].
      rewrite (IH _ (np + k)), (IH _ k).
      destruct (patch_loop g n _ 0 _) as [[k' w']|]; [|reflexivity].
      cbn. do 2 f_equal. lia.
    + apply IH.
Qed.

Lemma patch_loop_app g a b :
  forall p n_patched w,
    patch_loop g (a + b) p n_patched w
    = r ← patch_loop g a p n_patched w;
      patch_loop g b (window p a) r.1 r.2.
Proof.
  induction a as [|a IH]; intros p np w.
  - cbn [Nat.add patch_loop mbind option_bind fst snd].
    by replace (window p 0) with p by ts_arith.
  - cbn [Nat.add patch_loop].
    replace (window p (S a)) with (window (p + Z.to_nat TS_LEN) a) by ts_arith.
    destruct (check_sync (msgbuf w) p) as [ok|]; [|reflexivity].
    cbn [mbind option_bind]. destruct ok; cbn [negb].
    + destruct (match_loop g p _ 0 np (msgbuf w)) as [r|]; [|reflexivity].
      cbn [mbind option_bind]. apply IH.
    + apply IH.
Qed.

(** X6. A run over [a + b] packets is the run over the first [a]
    followed by the run over the next [b] on the buffer the first leaves;
    it fails if either does, and the counts add. *)
Theorem patch_ts_split (g : globals) (w : world) (p a b : nat) :
  patch_ts g p (Z.of_nat (a + b)) w
  = r1 ← patch_ts g p (Z.of_nat a) w;
    r2 ← patch_ts g (window p a) (Z.of_nat b) r1.2;
    Some (r1.1 + r2.1, r2.2).
Proof.
  unfold patch_ts. rewrite !Nat2Z.id, patch_loop_app.
  destruct (patch_loop g a p 0 w) as [[k w1]|]; [|reflexivity].
  cbn [mbind option_bind fst snd]. rewrite patch_loop_acc.
  by destruct (patch_loop g b (window p a) 0 w1) as [[k' w2]|].
Qed.

(** * Reads outside the buffer *)

Lemma match_loop_length g p iters :
  forall i n_patched m r,
    match_loop g p iters i n_patched m = Some r -> length r.2 = length m.
Proof.
  induction iters as [|iters IH]; intros i np m r.
  - cbn. by intros [= <-].
  - cbn [match_loop].
    destruct (get_pid m p) as [pid|]; [|discriminate].
    destruct (Pid2Patch g !! Z.to_nat i) as [f|]; [|discriminate].
    cbn [mbind option_bind]. destruct (pid =? f); [|apply IH].
    destruct (set_pid m p PID_NULL) as [m'|] eqn:E; [|discriminate].
    cbn [mbind option_bind]. intros Hr. rewrite (IH _ _ _ _ Hr).
    assert (m' = null_at m p) as -> by (unfold null_at; by rewrite E).
    apply null_at_length.
Qed.

Lemma patch_loop_out_of_bounds g n :
  forall p n_patched w j,
    (j < n)%nat -> (length (msgbuf w) <= window p j)%nat ->
    patch_loop g n p n_patched w = None.
Proof.
  induction n as [|n IH]; intros p np w j Hj Hshort; [lia|].
  cbn [patch_loop].
  destruct (check_sync (msgbuf w) p) as [ok|] eqn:Hs; [|reflexivity].
  assert (Hp : (p < length (msgbuf w))%nat).
  { unfold check_sync, hdr_sync, load in Hs.
    destruct (msgbuf w !! p) eqn:E; [|discriminate].
    apply lookup_lt_Some in E. exact E. }
  destruct j as [|j]; [ts_arith|].
  replace (window p (S j)) with (window (p + Z.to_nat TS_LEN) j) in Hshort
    by ts_arith.
  cbn [mbind option_bind]. destruct ok; cbn [negb].
  - destruct (match_loop g p _ 0 np (msgbuf w)) as [r|] eqn:E; [|reflexivity].
    cbn [mbind option_bind]. apply (IH _ _ _ j); [lia|].
    cbn [with_msgbuf msgbuf]. rewrite (match_loop_length _ _ _ _ _ _ _ E).
    exact Hshort.
  - apply (IH _ _ _ j); [lia|]. exact Hshort.
Qed.

(** X7. [patch_ts] does not check its arguments against the buffer: when
    one of the [n] windows it is told to visit starts at or past the end of
    the buffer, the run reads outside the buffer. *)
Theorem patch_ts_out_of_bounds (g : globals) (w : world) (p n j : nat) :
  (j < n)%nat ->
  (length (msgbuf w) <= window p j)%nat ->
  patch_ts g p (Z.of_nat n) w = None.
Proof.
  intros Hj Hshort. unfold patch_ts. rewrite Nat2Z.id.
  by apply (patch_loop_out_of_bounds g n p 0 w j).
Qed.

Lemma patch_ts_out_of_bounds_witness :
  patch_ts (filter_globals [100]) 12 (Z.of_nat 2)
           (quiet (rtp_header ++ packet_pid100)) = None.
Proof.
  apply (patch_ts_out_of_bounds (filter_globals [100])
           (quiet (rtp_header ++ packet_pid100)) 12 2 1).
  - lia.
  - vm_compute. lia.
Defined.

(** * What the run depends on *)

Lemma sum_hits_same_headers g m m' n :
  forall p, same_headers m m' p n -> sum_hits g m' p n = sum_hits g m p n.
Proof.
  induction n as [|n IH]; intros p H; [reflexivity|]. cbn [sum_hits].
  rewrite (pkt_hits_ext g m m' p)
    by (specialize (H 0%nat ltac:(lia));
        by replace (window p 0) with p in H by ts_arith).
  rewrite IH; [reflexivity|]. intros j Hj. specialize (H (S j) ltac:(lia)).
  by replace (window p (S j)) with (window (p + Z.to_nat TS_LEN) j) in H
    by ts_arith.
Qed.

Lemma sync_errors_same_headers m m' n :
  forall p, same_headers m m' p n -> sync_errors m' p n = sync_errors m p n.
Proof.
  induction n as [|n IH]; intros p H; [reflexivity|]. cbn [sync_errors].
  rewrite (pkt_bad_ext m m' p)
    by (specialize (H 0%nat ltac:(lia));
        by replace (window p 0) with p in H by ts_arith).
  rewrite IH; [reflexivity|]. intros j Hj. specialize (H (S j) ltac:(lia)).
  by replace (window p (S j)) with (window (p + Z.to_nat TS_LEN) j) in H
    by ts_arith.
Qed.

(** X8. The run looks at the first three bytes of each window and at
    nothing else: on two buffers that agree there, whatever the payloads
    and the bytes around the windows, [patch_ts] returns the same count,
    prints the same lines and leaves the same three bytes in each window. *)
Theorem patch_ts_reads_only_headers (g : globals) (w w' : world) (p n : nat) :
  globals_ok g ->
  (p + Z.to_nat TS_LEN * n <= length (msgbuf w))%nat ->
  (p + Z.to_nat TS_LEN * n <= length (msgbuf w'))%nat ->
  same_headers (msgbuf w) (msgbuf w') p n ->
  stdout w' = stdout w ->
  exists r r',
    patch_ts g p (Z.of_nat n) w = Some r
    /\ patch_ts g p (Z.of_nat n) w' = Some r'
    /\ r'.1 = r.1
    /\ stdout r'.2 = stdout r.2
    /\ same_headers (msgbuf r.2) (msgbuf r'.2) p n.
Proof.
  intros Hg Hlen Hlen' Hsame Hout.
  destruct (patch_ts_spec g w p n Hg Hlen) as (m1 & E & _ & _ & Hwin).
  destruct (patch_ts_spec g w' p n Hg Hlen') as (m1' & E' & _ & _ & Hwin').
  eexists _, _. split; [exact E|]. split; [exact E'|].
  cbn [fst snd stdout msgbuf]. split; [by apply sum_hits_same_headers|].
  split; [by rewrite Hout, (sync_errors_same_headers _ _ _ _ Hsame)|].
  intros j Hj. specialize (Hsame j Hj).
  assert (Hq : (window p j + 187 < length (msgbuf w))%nat) by ts_arith.
  assert (Hq' : (window p j + 187 < length (msgbuf w'))%nat) by ts_arith.
  repeat split; rewrite (Hwin j), (Hwin' j) by ts_arith;
    apply after_turn_ext; try lia; try exact Hsame; apply Hsame.
Qed.

Lemma patch_ts_reads_only_headers_witness :
  exists r r',
    patch_ts (filter_globals [100]) 0 (Z.of_nat 1)
             (quiet (ts_packet 0x47 0x40 0x64 0x10)) = Some r
    /\ patch_ts (filter_globals [100]) 0 (Z.of_nat 1)
                (quiet ([0x47; 0x40; 0x64; 0x3F] ++ replicate 184 0)) = Some r'
    /\ r'.1 = r.1
    /\ stdout r'.2 = stdout r.2
    /\ same_headers (msgbuf r.2) (msgbuf r'.2) 0 1.
Proof.
  apply (patch_ts_reads_only_headers (filter_globals [100])
           (quiet (ts_packet 0x47 0x40 0x64 0x10))
           (quiet ([0x47; 0x40; 0x64; 0x3F] ++ replicate 184 0)) 0 1).
  - unfold globals_ok. vm_compute. split; discriminate.
  - vm_compute. lia.
  - vm_compute. lia.
  - intros j Hj. assert (j = 0%nat) as -> by lia. by vm_compute.
  - reflexivity.
Defined.

Lemma pkt_listed_same_members g g' m q :
  (forall x, x ∈ active_filter g <-> x ∈ active_filter g') ->
  pkt_listed g' m q = pkt_listed g m q.
Proof.
  intros H. unfold pkt_listed.
  destruct (check_sync m q) as [[]|]; try reflexivity.
  destruct (get_pid m q) as [pid|]; try reflexivity.
  apply bool_decide_ext. symmetry. apply H.
Qed.

Lemma listed_count_same_members g g' m n :
  (forall x, x ∈ active_filter g <-> x ∈ active_filter g') ->
  forall p, listed_count g' m p n = listed_count g m p n.
Proof.
  intros H. induction n as [|n IH]; intros p; [reflexivity|].
  cbn [listed_count]. by rewrite IH, (pkt_listed_same_members g g').
Qed.

(** X9. The filter acts as a set.  Two filters with the same members,
    in whatever order and with whatever repetitions, make [patch_ts] leave
    the same buffer and print the same lines; and when 8191 is not among
    the members they make it return the same count. *)
Theorem patch_ts_filter_as_set (g g' : globals) (w : world) (p n : nat) :
  globals_ok g -> globals_ok g' ->
  (p + Z.to_nat TS_LEN * n <= length (msgbuf w))%nat ->
  (forall x, x ∈ active_filter g <-> x ∈ active_filter g') ->
  exists r r',
    patch_ts g p (Z.of_nat n) w = Some r
    /\ patch_ts g' p (Z.of_nat n) w = Some r'
    /\ r'.2 = r.2
    /\ (PID_NULL ∉ active_filter g -> r'.1 = r.1).
Proof.
  intros Hg Hg' Hlen Hmem.
  destruct (patch_ts_spec g w p n Hg Hlen) as (m1 & E & Hl & Hout & Hwin).
  destruct (patch_ts_spec g' w p n Hg' Hlen) as (m1' & E' & Hl' & Hout' & Hwin').
  eexists _, _. split; [exact E|]. split; [exact E'|].
  cbn [fst snd]. split.
  - f_equal. apply list_eq. intros a.
    destruct (window_cover p n a) as [Ha|[Ha|(j & Hj & Ha)]].
    + by rewrite Hout, Hout' by lia.
    + by rewrite Hout, Hout' by lia.
    + rewrite (Hwin j a Hj Ha), (Hwin' j a Hj Ha). unfold after_turn.
      by rewrite (pkt_listed_same_members g g').
  - intros Hnull.
    assert (Hnull' : PID_NULL ∉ active_filter g') by (by rewrite <- Hmem).
    rewrite !sum_hits_listed_count by done.
    by rewrite (listed_count_same_members g g').
Qed.

Lemma patch_ts_filter_as_set_witness :
  exists r r',
    patch_ts (filter_globals [100; 200; 100]) 0 (Z.of_nat 2)
             (quiet (packet_pid200 ++ packet_pid100)) = Some r
    /\ patch_ts (filter_globals [200; 100]) 0 (Z.of_nat 2)
                (quiet (packet_pid200 ++ packet_pid100)) = Some r'
    /\ r'.2 = r.2
    /\ (PID_NULL ∉ active_filter (filter_globals [100; 200; 100]) ->
        r'.1 = r.1).
Proof.
  apply (patch_ts_filter_as_set (filter_globals [100; 200; 100])
           (filter_globals [200; 100])
           (quiet (packet_pid200 ++ packet_pid100)) 0 2).
  - unfold globals_ok. vm_compute. split; discriminate.
  - unfold globals_ok. vm_compute. split; discriminate.
  - vm_compute. lia.
  - intros x.
    change (active_filter (filter_globals [100; 200; 100]))
      with [100; 200; 100].
    change (active_filter (filter_globals [200; 100])) with [200; 100].
    rewrite !elem_of_cons, !elem_of_nil. tauto.
Defined.

(** A run over windows none of which has the right sync byte together
    with a listed PID changes nothing and returns 0. *)
Lemma patch_ts_inert g w p n :
  globals_ok g ->
  (p + Z.to_nat TS_LEN * n <= length (msgbuf w))%nat ->
  (forall j, (j < n)%nat -> pkt_listed g (msgbuf w) (window p j) = false) ->
  exists r,
    patch_ts g p (Z.of_nat n) w = Some r
    /\ r.1 = 0 /\ msgbuf r.2 = msgbuf w.
Proof.
  intros Hg Hlen Hno.
  destruct (patch_ts_spec g w p n Hg Hlen) as (m' & E & _ & Hout & Hwin).
  eexists. split; [exact E|]. cbn [fst snd msgbuf]. split.
  - apply sum_hits_zero. intros j Hj. apply pkt_unlisted_hits. auto.
  - apply list_eq. intros a.
    destruct (window_cover p n a) as [Ha|[Ha|(j & Hj & Ha)]];
      [apply Hout; lia|apply Hout; lia|].
    rewrite (Hwin j a Hj Ha). unfold after_turn. by rewrite Hno.
Qed.

(** X10. Filter entries above 8191 never match: on a buffer of bytes, a
    filter whose entries are all greater than 8191 (such as the 65535 that
    the argument -1 is stored as) makes [patch_ts] return 0 and change no
    byte. *)
Theorem patch_ts_entries_above_null_inert (g : globals) (w : world)
    (p n : nat) :
  globals_ok g ->
  (p + Z.to_nat TS_LEN * n <= length (msgbuf w))%nat ->
  Forall is_byte (msgbuf w) ->
  Forall (fun f => PID_NULL < f) (active_filter g) ->
  exists r,
    patch_ts g p (Z.of_nat n) w = Some r
    /\ r.1 = 0 /\ msgbuf r.2 = msgbuf w.
Proof.
  intros Hg Hlen Hbytes Hbig. apply patch_ts_inert; [done|done|].
  intros j Hj. unfold pkt_listed.
  destruct (check_sync _ _) as [[]|]; try reflexivity.
  destruct (get_pid _ _) as [pid|] eqn:Hpid; try reflexivity.
  apply bool_decide_eq_false_2. intros Hin.
  pose proof (get_pid_bound _ _ _ Hbytes Hpid).
  rewrite Forall_forall in Hbig. specialize (Hbig pid Hin).
  unfold PID_NULL in Hbig. lia.
Qed.

Lemma patch_ts_entries_above_null_inert_witness :
  exists r,
    patch_ts (filter_globals [65535; 8192]) 12 (Z.of_nat 2)
             (quiet (rtp_header ++ packet_pid100 ++ packet_pid200)) = Some r
    /\ r.1 = 0
    /\ msgbuf r.2 = rtp_header ++ packet_pid100 ++ packet_pid200.
Proof.
  apply (patch_ts_entries_above_null_inert (filter_globals [65535; 8192])
           (quiet (rtp_header ++ packet_pid100 ++ packet_pid200)) 12 2).
  - unfold globals_ok. vm_compute. split; discriminate.
  - vm_compute. lia.
  - apply sample_packets_are_bytes.
  - change (active_filter (filter_globals [65535; 8192])) with [65535; 8192].
    repeat constructor.
Defined.

(** * More on [set_pid] and [get_pid] *)

Lemma pid_byte1_overwrite b v1 v2 :
  pid_byte1 (pid_byte1 b v1) v2 = pid_byte1 b v2.
Proof.
  unfold pid_byte1. rewrite mask_1F.
  apply Z.bits_inj'. intros i Hi. bits_rw.
  destruct (Z.ltb_spec i 5); rewrite ?andb_false_r, ?andb_true_r,
    ?orb_false_r; cbn; [reflexivity|].
  by destruct (Z.testbit b i).
Qed.

(** X11. The last [set_pid] wins: setting the PID of a header to [v1]
    and then to [v2] leaves the buffer that setting it to [v2] alone
    leaves. *)
Theorem set_pid_overwrites (m : list Z) (p : nat) (v1 v2 : Z) :
  (p + 2 < length m)%nat ->
  exists m1,
    set_pid m p v1 = Some m1 /\ set_pid m1 p v2 = set_pid m p v2.
Proof.
  intros Hlen.
  destruct (lookup_lt_is_Some_2 m (p + 1)%nat ltac:(lia)) as [b Hb].
  rewrite (set_pid_Some m p v1 b Hlen Hb).
  eexists. split; [reflexivity|].
  rewrite (set_pid_Some _ p v2 (pid_byte1 b v1)), (set_pid_Some m p v2 b Hlen Hb).
  - rewrite pid_byte1_overwrite.
    rewrite (list_insert_insert_ne _ (p + 2)%nat (p + 1)%nat) by lia.
    by rewrite !list_insert_insert_eq.
  - rewrite !length_insert. lia.
  - apply list_lookup_insert_eq. rewrite length_insert. lia.
Qed.

Lemma set_pid_overwrites_witness :
  exists m1,
    set_pid packet_pid100 0 0x1ABC = Some m1
    /\ set_pid m1 0 200 = set_pid packet_pid100 0 200.
Proof. apply (set_pid_overwrites packet_pid100 0 0x1ABC 200). cbn. lia. Defined.

Lemma byte_high_bits l i : is_byte l -> 8 <= i -> Z.testbit l i = false.
Proof.
  intros [H0 H1] Hi. destruct (Z.eq_dec l 0) as [->|Hne].
  - apply Z.bits_0.
  - apply Z.bits_above_log2; [lia|].
    assert (Z.log2 l < 8) by (apply Z.log2_lt_pow2; lia). lia.
Qed.

Lemma pid_split_low l b :
  is_byte l ->
  pid_byte2 (Z.lor l (Z.shiftl (Z.land b 0x1F) 8)) = l.
Proof.
  intros Hl. unfold pid_byte2. rewrite mask_1F, mask_FF, mask_1FFF.
  apply Z.bits_inj'. intros i Hi.
  destruct (Z.ltb_spec i 8) as [H8|H8].
  - rewrite !Z.land_spec, Z.lor_spec, Z.shiftl_spec_low by lia.
    rewrite !Z.testbit_ones_nonneg by lia.
    destruct (Z.ltb_spec i 8), (Z.ltb_spec i 13); try lia.
    by rewrite orb_false_r, !andb_true_r.
  - rewrite (byte_high_bits l i Hl H8). rewrite !Z.land_spec.
    rewrite (Z.testbit_ones_nonneg 8) by lia.
    destruct (Z.ltb_spec i 8); [lia|]. by rewrite andb_false_r.
Qed.

Lemma pid_split_high l b :
  is_byte l ->
  pid_byte1 b (Z.lor l (Z.shiftl (Z.land b 0x1F) 8)) = b.
Proof.
  intros Hl. unfold pid_byte1. rewrite mask_1F, mask_1FFF.
  apply Z.bits_inj'. intros i Hi. bits_rw.
  replace (i + 8 - 8) with i by lia.
  rewrite (byte_high_bits l (i + 8) Hl) by lia.
  destruct (Z.ltb_spec i 5), (Z.ltb_spec (i + 8) 13); try lia;
    by destruct (Z.testbit b i).
Qed.

Lemma pid_value_to_uint l b :
  is_byte l ->
  to_uint (Z.lor l (Z.shiftl (Z.land b 0x1F) 8))
  = Z.lor l (Z.shiftl (Z.land b 0x1F) 8).
Proof.
  intros Hl. unfold to_uint. rewrite <- Z.land_ones by lia. rewrite mask_1F.
  apply Z.bits_inj'. intros i Hi.
  rewrite Z.land_spec, (Z.testbit_ones_nonneg 32) by lia.
  destruct (Z.ltb_spec i 32); [by rewrite andb_true_r|].
  rewrite andb_false_r. bits_rw.
  rewrite (byte_high_bits l i Hl) by lia.
  destruct (Z.ltb_spec (i - 8) 5); [lia|]. by rewrite andb_false_r.
Qed.

(** X12. Writing back the PID that was read changes nothing: on a buffer
    of bytes, [set_pid(p, get_pid(p))] leaves the buffer as it is. *)
Theorem set_pid_of_get_pid (m : list Z) (p : nat) :
  Forall is_byte m ->
  (p + 2 < length m)%nat ->
  exists pid, get_pid m p = Some pid /\ set_pid m p pid = Some m.
Proof.
  intros Hm Hlen.
  destruct (lookup_lt_is_Some_2 m (p + 1)%nat ltac:(lia)) as [b Hb].
  destruct (lookup_lt_is_Some_2 m (p + 2)%nat ltac:(lia)) as [l Hl].
  assert (Hbyte : is_byte l) by (eapply Forall_lookup_1; eauto).
  rewrite (get_pid_Some m p l b Hl Hb).
  eexists. split; [reflexivity|].
  rewrite (set_pid_Some m p _ b Hlen Hb).
  rewrite pid_value_to_uint by done.
  rewrite pid_split_low, pid_split_high by done.
  rewrite (list_insert_id m (p + 2)%nat l Hl).
  by rewrite (list_insert_id m (p + 1)%nat b Hb).
Qed.

Lemma set_pid_of_get_pid_witness :
  exists pid,
    get_pid (rtp_header ++ packet_pid100 ++ packet_pid200) 200 = Some pid
    /\ set_pid (rtp_header ++ packet_pid100 ++ packet_pid200) 200 pid
       = Some (rtp_header ++ packet_pid100 ++ packet_pid200).
Proof.
  apply (set_pid_of_get_pid (rtp_header ++ packet_pid100 ++ packet_pid200) 200).
  - apply sample_packets_are_bytes.
  - vm_compute. lia.
Defined.

(** * More on framing *)

(** X13. The framing cuts a datagram of [n_in >= 0] bytes into a leading
    part shorter than one packet and whole packets that reach exactly to
    the end of the datagram; a buffer of [MSGBUFSIZE] bytes holds at most
    seven of them. *)
Theorem frame_partition (n_in : Z) :
  0 <= n_in ->
  0 <= (frame n_in).1
  /\ 0 <= (frame n_in).2 < TS_LEN
  /\ (frame n_in).2 + TS_LEN * (frame n_in).1 = n_in
  /\ (n_in <= MSGBUFSIZE -> (frame n_in).1 <= 7).
Proof.
  intros H. unfold frame, TS_LEN, MSGBUFSIZE. cbn [fst snd].
  rewrite Z.quot_div_nonneg by lia.
  pose proof (Z.div_mod n_in 188 ltac:(lia)).
  pose proof (Z.mod_pos_bound n_in 188 ltac:(lia)).
  repeat split; lia.
Qed.

Lemma frame_partition_witness :
  0 <= (frame 1400).1
  /\ 0 <= (frame 1400).2 < TS_LEN
  /\ (frame 1400).2 + TS_LEN * (frame 1400).1 = 1400
  /\ (1400 <= MSGBUFSIZE -> (frame 1400).1 <= 7).
Proof. apply (frame_partition 1400). lia. Defined.

(** * More on the command line *)





(** What the sample command line stores: 100, 110, 65535 and 100 again. *)
Example parse_args_sample_filter :
  (fun a => to_ushort (atoi a)) <$> ["100"; " 110x"; "-1"; "65636"]
  = [100; 110; 65535; 100].
Proof. vm_compute. reflexivity. Qed.

(** X15. A command line with at most 100 PID arguments starts a
    processing loop that never reads or writes outside [msgbuf] or
    [Pid2Patch], whatever it receives. *)
Theorem parse_args_then_main_loop_safe (argv : list string)
    (inps : list turn_input) :
  (5 <= length argv <= 5 + Pid2Patch_capacity)%nat ->
  exists g st',
    parse_args argv initial_globals = Done g
    /\ main_loop g initial_state inps = Some st'.
Proof.
  intros H.
  destruct (parse_args_within_capacity argv H) as (g & E & _ & _ & Hok).
  destruct (main_loop_total g inps Hok initial_state eq_refl) as (st' & E' & _).
  by exists g, st'.
Qed.

Lemma parse_args_then_main_loop_safe_witness :
  exists g st',
    parse_args (command_line 100) initial_globals = Done g
    /\ main_loop g initial_state
         [ {| recv := RecvDatagram (rtp_header ++ packet_pid100); now := 1 |};
           {| recv := RecvError; now := 2 |};
           {| recv := RecvDatagram [0x47]; now := 9 |} ]
       = Some st'.
Proof.
  apply (parse_args_then_main_loop_safe (command_line 100)).
  unfold Pid2Patch_capacity. vm_compute. lia.
Defined.

(** * More on the processing loop *)

Lemma main_turn_truncate g st payload t :
  main_turn g st {| recv := RecvDatagram payload; now := t |}
  = main_turn g st
      {| recv := RecvDatagram (take (Z.to_nat MSGBUFSIZE) payload); now := t |}.
Proof. unfold main_turn. cbn [recv now]. by rewrite recvfrom_truncate. Qed.

Lemma recvfrom_returns payload m :
  Z.to_nat (recvfrom payload m).1
  = length (take (Z.to_nat MSGBUFSIZE) payload).
Proof.
  unfold recvfrom. cbn [fst]. rewrite length_take. unfold MSGBUFSIZE. lia.
Qed.

(** The datagram sent for a payload that fits the buffer is fixed by the
    payload and the filter. *)
Lemma main_turn_sent_unique g st1 st2 payload t1 t2 :
  globals_ok g ->
  length (msgbuf (mem st1)) = Z.to_nat MSGBUFSIZE ->
  length (msgbuf (mem st2)) = Z.to_nat MSGBUFSIZE ->
  (length payload <= Z.to_nat MSGBUFSIZE)%nat ->
  exists st1' st2' d,
    main_turn g st1 {| recv := RecvDatagram payload; now := t1 |} = Some st1'
    /\ main_turn g st2 {| recv := RecvDatagram payload; now := t2 |} = Some st2'
    /\ sent st1' = sent st1 ++ [d]
    /\ sent st2' = sent st2 ++ [d]
    /\ length d = length payload.
Proof.
  intros Hg Hb1 Hb2 Hmax.
  destruct (frame_nat (length payload)) as (n & off & Hframe & HN & _).
  destruct (main_turn_spec g st1 payload t1 n off Hg Hb1 Hmax Hframe)
    as (st1' & d1 & E1 & S1 & L1 & _ & Hh1 & Hw1 & _).
  destruct (main_turn_spec g st2 payload t2 n off Hg Hb2 Hmax Hframe)
    as (st2' & d2 & E2 & S2 & L2 & _ & Hh2 & Hw2 & _).
  assert (d2 = d1) as ->.
  { apply list_eq. intros a.
    destruct (window_cover off n a) as [Ha|[Ha|(j & Hj & Ha)]].
    - by rewrite Hh1, Hh2.
    - by rewrite !lookup_ge_None_2 by lia.
    - by rewrite (Hw1 j a Hj Ha), (Hw2 j a Hj Ha). }
  by exists st1', st2', d1.
Qed.

(** X16. What is sent for a datagram depends on the datagram and the
    filter alone: not on what the buffer held from earlier datagrams, not
    on the counters, not on the clock. *)
Theorem main_turn_output_independent_of_state (g : globals)
    (st1 st2 : main_state) (payload : list Z) (t1 t2 : Z) :
  globals_ok g ->
  length (msgbuf (mem st1)) = Z.to_nat MSGBUFSIZE ->
  length (msgbuf (mem st2)) = Z.to_nat MSGBUFSIZE ->
  exists st1' st2' d,
    main_turn g st1 {| recv := RecvDatagram payload; now := t1 |} = Some st1'
    /\ main_turn g st2 {| recv := RecvDatagram payload; now := t2 |} = Some st2'
    /\ sent st1' = sent st1 ++ [d]
    /\ sent st2' = sent st2 ++ [d].
Proof.
  intros Hg Hb1 Hb2.
  rewrite (main_turn_truncate g st1), (main_turn_truncate g st2).
  destruct (main_turn_sent_unique g st1 st2
              (take (Z.to_nat MSGBUFSIZE) payload) t1 t2 Hg Hb1 Hb2)
    as (st1' & st2' & d & E1 & E2 & S1 & S2 & _).
  { rewrite length_take. lia. }
  by exists st1', st2', d.
Qed.

Lemma main_turn_output_independent_of_state_witness :
  exists st1' st2' d,
    main_turn (filter_globals [100]) initial_state
      {| recv := RecvDatagram (rtp_header ++ packet_pid100); now := 3 |}
    = Some st1'
    /\ main_turn (filter_globals [100])
         {| mem := {| msgbuf := replicate 1400 0x47; stdout := [SyncErrorLine] |};
            count_udp := 9; count_ts := 63; count_patched := 5;
            last_display := 1; sent := [[1; 2; 3]] |}
         {| recv := RecvDatagram (rtp_header ++ packet_pid100); now := 40 |}
       = Some st2'
    /\ sent st1' = sent initial_state ++ [d]
    /\ sent st2' = [[1; 2; 3]] ++ [d].
Proof.
  apply (main_turn_output_independent_of_state (filter_globals [100])
           initial_state
           {| mem := {| msgbuf := replicate 1400 0x47;
                        stdout := [SyncErrorLine] |};
              count_udp := 9; count_ts := 63; count_patched := 5;
              last_display := 1; sent := [[1; 2; 3]] |}
           (rtp_header ++ packet_pid100) 3 40).
  - unfold globals_ok. vm_compute. split; discriminate.
  - vm_compute. reflexivity.
  - vm_compute. reflexivity.
Defined.

Lemma main_turn_forwards g st payload t :
  globals_ok g ->
  length (msgbuf (mem st)) = Z.to_nat MSGBUFSIZE ->
  exists st' d,
    main_turn g st {| recv := RecvDatagram payload; now := t |} = Some st'
    /\ length (msgbuf (mem st')) = Z.to_nat MSGBUFSIZE
    /\ sent st' = sent st ++ [d]
    /\ length d = Z.to_nat (recvfrom payload []).1.
Proof.
  intros Hg Hbuf. rewrite main_turn_truncate, recvfrom_returns.
  destruct (frame_nat (length (take (Z.to_nat MSGBUFSIZE) payload)))
    as (n & off & Hframe & _).
  assert (Hmax : (length (take (Z.to_nat MSGBUFSIZE) payload)
                  <= Z.to_nat MSGBUFSIZE)%nat)
    by (rewrite length_take; lia).
  destruct (main_turn_spec g st _ t n off Hg Hbuf Hmax Hframe)
    as (st' & d & E & S & L & Hb & _).
  by exists st', d.
Qed.

(** X17. The loop sends one datagram for each datagram received, in the
    order received and of the length [recvfrom] returned for it, and
    nothing for a failed receive: no datagram is dropped, added, cut or
    padded. *)
Theorem main_loop_forwards_every_datagram (g : globals)
    (inps : list turn_input) (st : main_state) :
  globals_ok g ->
  length (msgbuf (mem st)) = Z.to_nat MSGBUFSIZE ->
  exists st',
    main_loop g st inps = Some st'
    /\ length <$> sent st' = (length <$> sent st) ++ received_lengths inps.
Proof.
  intros Hg. revert st. induction inps as [|[[|payload] t] inps IH];
    intros st Hbuf.
  - exists st. cbn. by rewrite app_nil_r.
  - cbn [main_loop received_lengths recv]. unfold main_turn at 1.
    cbn [recv mbind option_bind]. by apply IH.
  - destruct (main_turn_forwards g st payload t Hg Hbuf)
      as (st1 & d & E & Hb & S & L).
    destruct (IH st1 Hb) as (st' & E' & S').
    exists st'. cbn [main_loop received_lengths recv]. rewrite E.
    cbn [mbind option_bind]. split; [exact E'|].
    rewrite S', S, fmap_app. cbn [fmap list_fmap]. rewrite L.
    by rewrite <- app_assoc.
Qed.

Lemma main_loop_forwards_every_datagram_witness :
  exists st',
    main_loop (filter_globals [100]) initial_state
      [ {| recv := RecvDatagram (rtp_header ++ packet_pid100); now := 1 |};
        {| recv := RecvError; now := 2 |};
        {| recv := RecvDatagram [0x47; 0x1F]; now := 9 |};
        {| recv := RecvDatagram (replicate 1500 0x47); now := 9 |} ]
    = Some st'
    /\ length <$> sent st'
       = (length <$> sent initial_state)
         ++ received_lengths
              [ {| recv := RecvDatagram (rtp_header ++ packet_pid100); now := 1 |};
                {| recv := RecvError; now := 2 |};
                {| recv := RecvDatagram [0x47; 0x1F]; now := 9 |};
                {| recv := RecvDatagram (replicate 1500 0x47); now := 9 |} ].
Proof.
  apply (main_loop_forwards_every_datagram (filter_globals [100])).
  - unfold globals_ok. vm_compute. split; discriminate.
  - vm_compute. reflexivity.
Defined.

(** The lengths in the sample run: 200, 2 and the 1400 that fit. *)
Example received_lengths_sample :
  received_lengths
    [ {| recv := RecvDatagram (rtp_header ++ packet_pid100); now := 1 |};
      {| recv := RecvError; now := 2 |};
      {| recv := RecvDatagram [0x47; 0x1F]; now := 9 |};
      {| recv := RecvDatagram (replicate 1500 0x47); now := 9 |} ]
  = [200; 2; 1400]%nat.
Proof. vm_compute. reflexivity. Qed.

(** X18. The statistics of one turn.  A datagram that fits the buffer
    adds one to the datagram counter, its number of packets to the packet
    counter and between 0 and packets times filter entries to the patch
    counter, each modulo 2^64.  The console gets one line per window with a
    wrong sync byte and then, if the clock is at least 5 past the last
    status line, a status line with the new counters; only then is the
    time of the last status line moved. *)
Theorem main_turn_statistics (g : globals) (st : main_state)
    (payload : list Z) (t : Z) (n off : nat) :
  globals_ok g ->
  length (msgbuf (mem st)) = Z.to_nat MSGBUFSIZE ->
  (length payload <= Z.to_nat MSGBUFSIZE)%nat ->
  frame (Z.of_nat (length payload)) = (Z.of_nat n, Z.of_nat off) ->
  exists st' k,
    main_turn g st {| recv := RecvDatagram payload; now := t |} = Some st'
    /\ count_udp st' = to_ull (count_udp st + 1)
    /\ count_ts st' = to_ull (count_ts st + Z.of_nat n)
    /\ count_patched st' = to_ull (count_patched st + k)
    /\ 0 <= k <= Z.of_nat n * Pid2PatchCount g
    /\ stdout (mem st')
       = stdout (mem st)
         ++ replicate (sync_errors payload off n) SyncErrorLine
         ++ (if 5 <=? t - last_display st
             then [StatusLine (count_udp st') (Z.of_nat (length payload))
                              (count_ts st') (count_patched st')]
             else [])
    /\ last_display st'
       = (if 5 <=? t - last_display st then t else last_display st).
Proof.
  intros Hg Hbuf Hmax Hframe.
  assert (HN : (off + Z.to_nat TS_LEN * n = length payload)%nat).
  { destruct (frame_nat (length payload)) as (n' & off' & E & H & _).
    rewrite Hframe in E. injection E as En Eo. lia. }
  unfold main_turn. cbn [recv now].
  rewrite recvfrom_length by (unfold MSGBUFSIZE in *; lia).
  rewrite Hframe. rewrite !Nat2Z.id.
  set (m0 := payload ++ drop (length payload) (msgbuf (mem st))).
  assert (Hm0 : length m0 = Z.to_nat MSGBUFSIZE).
  { subst m0. rewrite length_app, length_drop. lia. }
  assert (Hpre : forall a, (a < length payload)%nat -> m0 !! a = payload !! a).
  { intros a Ha. subst m0. by apply lookup_app_l. }
  destruct (patch_ts_spec g (with_msgbuf m0 (mem st)) off n Hg
              ltac:(cbn [with_msgbuf msgbuf]; lia))
    as (m' & -> & _).
  cbn [with_msgbuf msgbuf stdout mbind option_bind fst snd] in *.
  eexists _, (sum_hits g m0 off n). split; [reflexivity|].
  cbn [count_udp count_ts count_patched last_display mem].
  split; [reflexivity|]. split; [reflexivity|]. split; [reflexivity|].
  split.
  - pose proof (sum_hits_bounds g m0 n off) as Hb.
    unfold active_filter in Hb. rewrite length_take in Hb.
    destruct Hg. nia.
  - split; [|reflexivity].
    rewrite (sync_errors_ext payload m0 n off)
      by (intros a Ha; apply Hpre; lia).
    destruct (5 <=? t - last_display st); cbn [printf stdout].
    + by rewrite <- app_assoc.
    + by rewrite app_nil_r.
Qed.

Lemma main_turn_statistics_witness :
  exists st' k,
    main_turn (filter_globals [100]) initial_state
      {| recv := RecvDatagram (rtp_header ++ packet_nosync ++ packet_pid100);
         now := 7 |} = Some st'
    /\ count_udp st' = to_ull (count_udp initial_state + 1)
    /\ count_ts st' = to_ull (count_ts initial_state + Z.of_nat 2)
    /\ count_patched st' = to_ull (count_patched initial_state + k)
    /\ 0 <= k <= Z.of_nat 2 * Pid2PatchCount (filter_globals [100])
    /\ stdout (mem st')
       = stdout (mem initial_state)
         ++ replicate
              (sync_errors (rtp_header ++ packet_nosync ++ packet_pid100) 12 2)
              SyncErrorLine
         ++ (if 5 <=? 7 - last_display initial_state
             then [StatusLine (count_udp st')
                     (Z.of_nat (length (rtp_header ++ packet_nosync
                                          ++ packet_pid100)))
                     (count_ts st') (count_patched st')]
             else [])
    /\ last_display st'
       = (if 5 <=? 7 - last_display initial_state
          then 7 else last_display initial_state).
Proof.
  apply (main_turn_statistics (filter_globals [100]) initial_state
           (rtp_header ++ packet_nosync ++ packet_pid100) 7 2 12).
  - unfold globals_ok. vm_compute. split; discriminate.
  - vm_compute. reflexivity.
  - vm_compute. lia.
  - vm_compute. reflexivity.
Defined.

Lemma main_turn_passes_unlisted g st payload t :
  globals_ok g ->
  length (msgbuf (mem st)) = Z.to_nat MSGBUFSIZE ->
  (length payload <= Z.to_nat MSGBUFSIZE)%nat ->
  (forall q, pkt_listed g payload q = false) ->
  exists st',
    main_turn g st {| recv := RecvDatagram payload; now := t |} = Some st'
    /\ sent st' = sent st ++ [payload].
Proof.
  intros Hg Hbuf Hmax Hno.
  destruct (frame_nat (length payload)) as (n & off & Hframe & HN & _).
  destruct (main_turn_spec g st payload t n off Hg Hbuf Hmax Hframe)
    as (st' & d & E & S & L & _ & Hh & Hw & _).
  exists st'. split; [exact E|]. rewrite S. do 2 f_equal.
  apply list_eq. intros a.
  destruct (window_cover off n a) as [Ha|[Ha|(j & Hj & Ha)]].
  - by apply Hh.
  - by rewrite !lookup_ge_None_2 by lia.
  - rewrite (Hw j a Hj Ha). unfold after_turn. by rewrite Hno.
Qed.

(** X19. A command line without PID arguments is accepted (the usage
    text asks for one, the test is [argc < 5]), and the program it starts
    forwards every datagram that fits the buffer byte for byte. *)
Theorem no_pid_arguments_forward_unchanged (argv : list string)
    (st : main_state) (payload : list Z) (t : Z) :
  length argv = 5%nat ->
  length (msgbuf (mem st)) = Z.to_nat MSGBUFSIZE ->
  (length payload <= Z.to_nat MSGBUFSIZE)%nat ->
  exists g st',
    parse_args argv initial_globals = Done g
    /\ Pid2PatchCount g = 0
    /\ main_turn g st {| recv := RecvDatagram payload; now := t |} = Some st'
    /\ sent st' = sent st ++ [payload].
Proof.
  intros Hargs Hbuf Hmax.
  destruct (parse_args_within_capacity argv) as (g & E & Hc & _ & Hok).
  { unfold Pid2Patch_capacity. lia. }
  rewrite Hargs in Hc. cbn in Hc.
  destruct (main_turn_passes_unlisted g st payload t Hok Hbuf Hmax)
    as (st' & E' & S).
  { intros q. unfold pkt_listed, active_filter. rewrite Hc. cbn [Z.to_nat take].
    destruct (check_sync payload q) as [[]|]; try reflexivity.
    destruct (get_pid payload q); reflexivity. }
  by exists g, st'.
Qed.

Lemma no_pid_arguments_forward_unchanged_witness :
  exists g st',
    parse_args (command_line 0) initial_globals = Done g
    /\ Pid2PatchCount g = 0
    /\ main_turn g initial_state
         {| recv := RecvDatagram (rtp_header ++ packet_pid100); now := 1 |}
       = Some st'
    /\ sent st' = sent initial_state ++ [rtp_header ++ packet_pid100].
Proof.
  apply (no_pid_arguments_forward_unchanged (command_line 0) initial_state
           (rtp_header ++ packet_pid100) 1).
  - reflexivity.
  - vm_compute. reflexivity.
  - vm_compute. lia.
Defined.

(** * Two filters in a row *)

Lemma pkt_listed_union g1 g2 g12 m q :
  (forall x, x ∈ active_filter g12
             <-> x ∈ active_filter g1 \/ x ∈ active_filter g2) ->
  pkt_listed g12 m q = pkt_listed g1 m q || pkt_listed g2 m q.
Proof.
  intros H. unfold pkt_listed.
  destruct (check_sync m q) as [[]|]; try reflexivity.
  destruct (get_pid m q) as [pid|]; try reflexivity.
  rewrite <- bool_decide_or. apply bool_decide_ext. apply H.
Qed.

Lemma after_turn_chain g1 g2 g12 m q :
  (q + 2 < length m)%nat ->
  (forall x, x ∈ active_filter g12
             <-> x ∈ active_filter g1 \/ x ∈ active_filter g2) ->
  after_turn g2 (after_turn g1 m q) q = after_turn g12 m q.
Proof.
  intros Hlen H. unfold after_turn at 2 3.
  rewrite (pkt_listed_union g1 g2 g12 m q H).
  destruct (pkt_listed g1 m q); cbn [orb].
  - unfold after_turn. destruct (pkt_listed g2 _ _); [|reflexivity].
    by apply null_at_idem.
  - reflexivity.
Qed.

(** X20. Two patchers in a row act as one: running [patch_ts] with one
    filter and then, on the buffer it leaves, with a second filter gives
    the buffer that a single run gives with a filter whose members are
    those of both. *)
Theorem patch_ts_chain (g1 g2 g12 : globals) (w : world) (p n : nat) :
  globals_ok g1 -> globals_ok g2 -> globals_ok g12 ->
  (p + Z.to_nat TS_LEN * n <= length (msgbuf w))%nat ->
  (forall x, x ∈ active_filter g12
             <-> x ∈ active_filter g1 \/ x ∈ active_filter g2) ->
  exists r1 r2 r12,
    patch_ts g1 p (Z.of_nat n) w = Some r1
    /\ patch_ts g2 p (Z.of_nat n) r1.2 = Some r2
    /\ patch_ts g12 p (Z.of_nat n) w = Some r12
    /\ msgbuf r2.2 = msgbuf r12.2.
Proof.
  intros Hg1 Hg2 Hg12 Hlen Hmem.
  destruct (patch_ts_spec g1 w p n Hg1 Hlen) as (m1 & E1 & L1 & O1 & W1).
  set (w1 := {| msgbuf := m1; stdout := _ |}) in E1.
  destruct (patch_ts_spec g2 w1 p n Hg2 ltac:(cbn [w1 msgbuf]; lia))
    as (m2 & E2 & L2 & O2 & W2).
  destruct (patch_ts_spec g12 w p n Hg12 Hlen) as (m12 & E12 & L12 & O12 & W12).
  cbn [w1 msgbuf] in *.
  eexists _, _, _. split; [exact E1|]. split; [exact E2|].
  split; [exact E12|]. cbn [snd msgbuf].
  apply list_eq. intros a.
  destruct (window_cover p n a) as [Ha|[Ha|(j & Hj & Ha)]].
  - by rewrite O2, O1, O12 by lia.
  - by rewrite O2, O1, O12 by lia.
  - rewrite (W2 j a Hj Ha), (W12 j a Hj Ha).
    assert (Hq : (window p j + 187 < length (msgbuf w))%nat) by ts_arith.
    rewrite <- (after_turn_chain g1 g2 g12) by (done || lia).
    apply after_turn_ext.
    + rewrite after_turn_length. lia.
    + lia.
    + repeat split; apply W1; ts_arith.
    + by apply W1.
Qed.

Lemma patch_ts_chain_witness :
  exists r1 r2 r12,
    patch_ts (filter_globals [100; 8191]) 0 (Z.of_nat 3)
             (quiet (packet_pid100 ++ packet_pid200 ++ packet_null)) = Some r1
    /\ patch_ts (filter_globals [200]) 0 (Z.of_nat 3) r1.2 = Some r2
    /\ patch_ts (filter_globals [200; 100; 8191]) 0 (Z.of_nat 3)
                (quiet (packet_pid100 ++ packet_pid200 ++ packet_null))
       = Some r12
    /\ msgbuf r2.2 = msgbuf r12.2.
Proof.
  apply (patch_ts_chain (filter_globals [100; 8191]) (filter_globals [200])
           (filter_globals [200; 100; 8191])
           (quiet (packet_pid100 ++ packet_pid200 ++ packet_null)) 0 3).
  - unfold globals_ok. vm_compute. split; discriminate.
  - unfold globals_ok. vm_compute. split; discriminate.
  - unfold globals_ok. vm_compute. split; discriminate.
  - vm_compute. lia.
  - intros x.
    change (active_filter (filter_globals [200; 100; 8191]))
      with [200; 100; 8191].
    change (active_filter (filter_globals [100; 8191])) with [100; 8191].
    change (active_filter (filter_globals [200])) with [200].
    rewrite !elem_of_cons, !elem_of_nil. tauto.
Defined.

(** * The PID as a number *)

Lemma lor_shift_add l h :
  is_byte l -> 0 <= h -> Z.lor l (Z.shiftl h 8) = 256 * h + l.
Proof.
  intros Hl Hh.
  assert (Hdisj : Z.land l (Z.shiftl h 8) = 0).
  { apply Z.bits_inj'. intros i Hi. rewrite Z.bits_0, Z.land_spec.
    destruct (Z.ltb_spec i 8).
    - by rewrite Z.shiftl_spec_low, andb_false_r by lia.
    - by rewrite (byte_high_bits l i Hl) by lia. }
  rewrite <- Z.lxor_lor, <- Z.add_nocarry_lxor by exact Hdisj.
  rewrite Z.shiftl_mul_pow2 by lia. change (2 ^ 8) with 256. lia.
Qed.

(** X21. The PID of a header is the 13-bit number whose high five bits
    are the low five bits of byte 1 and whose low eight bits are byte 2:
    on a buffer of bytes, [get_pid] returns 256 * (byte 1 mod 32) + byte 2;
    the top three bits of byte 1 and bytes 0 and 3 play no part. *)
Theorem get_pid_value (m : list Z) (p : nat) (b1 b2 : Z) :
  Forall is_byte m ->
  m !! (p + 1)%nat = Some b1 ->
  m !! (p + 2)%nat = Some b2 ->
  get_pid m p = Some (256 * (b1 mod 32) + b2).
Proof.
  intros Hm H1 H2.
  assert (Hb2 : is_byte b2) by (eapply Forall_lookup_1; eauto).
  rewrite (get_pid_Some m p b2 b1 H2 H1), pid_value_to_uint by done.
  rewrite mask_1F, Z.land_ones by lia. change (2 ^ 5) with 32.
  rewrite lor_shift_add; [reflexivity|done|].
  apply Z.mod_pos_bound. lia.
Qed.

Lemma get_pid_value_witness :
  get_pid packet_pid200 0 = Some (256 * (0x80 mod 32) + 0xC8).
Proof.
  apply (get_pid_value packet_pid200 0 0x80 0xC8).
  - assert (H : bool_decide (Forall (fun b => 0 <= b < 256) packet_pid200)
                = true) by (vm_compute; reflexivity).
    exact (bool_decide_eq_true_1 _ H).
  - reflexivity.
  - reflexivity.
Defined.
